(** * Engine selection and fallback orchestration of the ASR package

    A shallow embedding of [asr/selector.py] (class [EngineSelector]) and of
    [asr/factory.py] (class [ASRClientFactory]), and the properties of the
    selection and fallback subsystem checked against it.

    Conventions of the embedding:
    - a Python [float] is a binary64 value of [PrimFloat]; the integer
      entries of the capability table (95, 80, ...) are read as the floats
      they are promoted to as soon as they meet a weight ([int * float]);
    - a Python [int] that stays an integer (speaker and language counts) is
      a [Z];
    - a [dict] literal whose key order is observable ([keys()]) is an
      association list in insertion order;
    - an operation that can raise returns a [pyresult]. *)

From Stdlib Require Import List String Ascii Bool ZArith Floats Lia.
From Stdlib Require Import Permutation Sorted DecimalString.
Import ListNotations.

(* Decimal literals such as 0.3 denote the nearest binary64 value, as they
   do in Python. *)
#[global] Set Warnings "-inexact-float".

Open Scope string_scope.

(** ** Python values and exceptions *)

Inductive pyexn : Type :=
| IndexError
| ValueError (msg : string)
| RuntimeError (msg : string)
| ConstructionError (detail : string).

Inductive pyresult (A : Type) : Type :=
| Ok (a : A)
| Raise (e : pyexn).

Arguments Ok {A} a.
Arguments Raise {A} e.

(** [d.get(key)] on a dict kept as an association list. *)
Fixpoint dict_get {V : Type} (d : list (string * V)) (key : string) : option V :=
  match d with
  | [] => None
  | (k, v) :: rest => if String.eqb k key then Some v else dict_get rest key
  end.

(** [d.get(key, default)]. *)
Definition dict_get_default {V : Type} (d : list (string * V)) (key : string)
  (default : V) : V :=
  match dict_get d key with
  | Some v => v
  | None => default
  end.

(** [key in d]. *)
Definition dict_mem {V : Type} (d : list (string * V)) (key : string) : bool :=
  match dict_get d key with
  | Some _ => true
  | None => false
  end.

(** [list(d.keys())]. *)
Definition dict_keys {V : Type} (d : list (string * V)) : list string :=
  map fst d.

(** [l[0]], which raises [IndexError] on the empty list. *)
Definition list_first {A : Type} (l : list A) : pyresult A :=
  match l with
  | [] => Raise IndexError
  | x :: _ => Ok x
  end.

(** [x in l] for a list or tuple of strings. *)
Definition str_in (x : string) (l : list string) : bool :=
  existsb (String.eqb x) l.

(** [str(n)] for an [int]. *)
Definition str_of_int (n : Z) : string :=
  NilZero.string_of_int (Z.to_int n).

(** [l.append(x)]. *)
Definition list_append {A : Type} (l : list A) (x : A) : list A :=
  (l ++ [x])%list.

(** [min(a, b)] and [max(a, b)] of the builtins: the first argument is kept
    unless the second compares strictly below (above) it. *)
Definition py_min (a b : float) : float := if PrimFloat.ltb b a then b else a.
Definition py_max (a b : float) : float := if PrimFloat.ltb a b then b else a.

(** ** Data model of the selector *)

Inductive Scenario : Type :=
| REALTIME
| TRANSCRIPTION
| MEETING
| MULTILINGUAL
| COMMAND
| GENERAL.

Definition Scenario_eqb (a b : Scenario) : bool :=
  match a, b with
  | REALTIME, REALTIME | TRANSCRIPTION, TRANSCRIPTION | MEETING, MEETING
  | MULTILINGUAL, MULTILINGUAL | COMMAND, COMMAND | GENERAL, GENERAL => true
  | _, _ => false
  end.

Record AudioContext : Type := mkAudioContext {
  audio_path : option string;
  duration_seconds : float;
  estimated_speakers : Z;
  language_hint : string;
  is_streaming : bool;
  priority : string
}.

(** [AudioContext()] with the dataclass defaults. *)
Definition default_context : AudioContext :=
  {| audio_path := None;
     duration_seconds := 0%float;
     estimated_speakers := 1%Z;
     language_hint := "auto";
     is_streaming := false;
     priority := "balanced" |}.

Record EngineScore : Type := mkEngineScore {
  engine_name : string;
  total_score : float;
  latency_score : float;
  accuracy_score : float;
  resource_score : float;
  feature_score : float;
  reasons : list string
}.

Record SelectionResult : Type := mkSelectionResult {
  recommended_engine : string;
  fallback_engine : string;
  scenario : Scenario;
  score : EngineScore;
  confidence : float;
  alternatives : list string
}.

(** One entry of [ENGINE_CAPABILITIES]. *)
Record EngineCapability : Type := mkCapability {
  latency : float;
  accuracy : float;
  resource : float;
  streaming : bool;
  diarization : bool;
  languages : Z;
  model_names : list string
}.

(** A weight dict with its three keys. *)
Record Weights : Type := mkWeights {
  w_latency : float;
  w_accuracy : float;
  w_resource : float
}.

Definition ENGINE_CAPABILITIES : list (string * EngineCapability) :=
  [ ("nano-2512",
     mkCapability 95 80 70 true false 31 ["nano-2512"; "nano-mlt"]);
    ("paraformer-zh",
     mkCapability 50 90 60 false true 1 ["paraformer-zh"]);
    ("sensevoice",
     mkCapability 40 95 50 false false 5 ["sensevoice"]);
    ("moss",
     mkCapability 30 88 100 false true 1 ["moss-transcribe-diarize"]) ].

Definition SCENARIO_WEIGHTS (s : Scenario) : Weights :=
  match s with
  | REALTIME => mkWeights 0.5 0.3 0.2
  | TRANSCRIPTION => mkWeights 0.2 0.6 0.2
  | MEETING => mkWeights 0.3 0.4 0.3
  | MULTILINGUAL => mkWeights 0.3 0.4 0.3
  | COMMAND => mkWeights 0.6 0.3 0.1
  | GENERAL => mkWeights 0.3 0.4 0.3
  end.

Definition FALLBACK_CHAIN : list (string * list string) :=
  [ ("nano-2512", ["paraformer-zh"; "moss"]);
    ("paraformer-zh", ["sensevoice"; "moss"]);
    ("sensevoice", ["paraformer-zh"; "moss"]);
    ("moss", ["paraformer-zh"]) ].

(** ** The selector *)

(** The state of an [EngineSelector] instance. *)
Record EngineSelector : Type := mkEngineSelector {
  _available_engines : list string
}.

(** [EngineSelector.__init__]. *)
Definition EngineSelector_init (available_engines : option (list string))
  : EngineSelector :=
  match available_engines with
  | None => mkEngineSelector (dict_keys ENGINE_CAPABILITIES)
  | Some l =>
      mkEngineSelector (filter (fun e => dict_mem ENGINE_CAPABILITIES e) l)
  end.

(** [EngineSelector.detect_scenario]. *)
Definition detect_scenario (context : AudioContext) : Scenario :=
  if is_streaming context then REALTIME
  else if str_in (language_hint context) ["en"; "multi"] then MULTILINGUAL
  else if PrimFloat.ltb (duration_seconds context) 5
          && String.eqb (priority context) "latency" then COMMAND
  else if (1 <? estimated_speakers context)%Z then MEETING
  else if PrimFloat.ltb 60 (duration_seconds context)
          && String.eqb (priority context) "accuracy" then TRANSCRIPTION
  else GENERAL.

(** [capabilities.get(field, default)] where [capabilities] is the registry
    entry, or the empty dict for an engine the registry does not have. *)
Definition cap_get {A : Type} (capabilities : option EngineCapability)
  (field : EngineCapability -> A) (default : A) : A :=
  match capabilities with
  | Some c => field c
  | None => default
  end.

(** [EngineSelector._score_engine]. The local variables that the source
    updates in place ([latency_score], [accuracy_score], [reasons]) are
    rebound after each block of the source. *)
Definition _score_engine (engine : string) (scenario : Scenario)
  (context : AudioContext) (weights : Weights) : EngineScore :=
  let capabilities := dict_get ENGINE_CAPABILITIES engine in
  let latency_score := cap_get capabilities latency 0%float in
  let accuracy_score := cap_get capabilities accuracy 0%float in
  let resource_score := cap_get capabilities resource 0%float in
  let reasons : list string := [] in
  let '(latency_score, reasons) :=
    if Scenario_eqb scenario REALTIME then
      if negb (cap_get capabilities streaming false)
      then ((latency_score * 0.1)%float, list_append reasons "不支持流式输入")
      else (latency_score, list_append reasons "原生流式支持，低延迟")
    else (latency_score, reasons) in
  let '(accuracy_score, reasons) :=
    if Scenario_eqb scenario MEETING then
      if negb (cap_get capabilities diarization false)
      then ((accuracy_score * 0.5)%float, list_append reasons "不支持说话人分离")
      else (accuracy_score, list_append reasons "支持说话人分离")
    else (accuracy_score, reasons) in
  let '(accuracy_score, reasons) :=
    if Scenario_eqb scenario MULTILINGUAL then
      let lang_count := cap_get capabilities languages 1%Z in
      if (lang_count <? 5)%Z
      then ((accuracy_score * 0.7)%float,
            list_append reasons ("仅支持 " ++ str_of_int lang_count ++ " 种语言"))
      else (accuracy_score,
            list_append reasons ("支持 " ++ str_of_int lang_count ++ " 种语言"))
    else (accuracy_score, reasons) in
  let reasons :=
    if Scenario_eqb scenario TRANSCRIPTION then
      if PrimFloat.leb 90 (cap_get capabilities accuracy 0%float)
      then list_append reasons "高精度模型" else reasons
    else reasons in
  let reasons :=
    if Scenario_eqb scenario COMMAND then
      if PrimFloat.leb 80 (cap_get capabilities latency 0%float)
      then list_append reasons "低延迟响应" else reasons
    else reasons in
  let '(accuracy_score, reasons) :=
    if String.eqb (language_hint context) "zh" then
      if (1 <=? cap_get capabilities languages 0%Z)%Z
      then ((accuracy_score * 1.1)%float, list_append reasons "中文优化")
      else (accuracy_score, reasons)
    else (accuracy_score, reasons) in
  let '(accuracy_score, reasons) :=
    if String.eqb (language_hint context) "en" then
      let names := cap_get capabilities model_names [] in
      if str_in "en" names || str_in "paraformer-en" names
      then ((accuracy_score * 1.1)%float, list_append reasons "英文支持")
      else (accuracy_score, reasons)
    else (accuracy_score, reasons) in
  let total_score :=
    (latency_score * w_latency weights
     + accuracy_score * w_accuracy weights
     + resource_score * w_resource weights)%float in
  {| engine_name := engine;
     total_score := total_score;
     latency_score := latency_score;
     accuracy_score := accuracy_score;
     resource_score := resource_score;
     feature_score := 0%float;
     reasons := reasons |}.

(** [EngineSelector._get_priority_weights]. *)
Definition _get_priority_weights (priority : string) : Weights :=
  if String.eqb priority "latency" then mkWeights 0.6 0.3 0.1
  else if String.eqb priority "accuracy" then mkWeights 0.2 0.7 0.1
  else mkWeights 0.4 0.4 0.2.

(** [scores.sort(key=lambda x: x[1].total_score, reverse=True)]: the stable
    sort of the builtin, descending on the key.  [insert_desc x l] puts [x],
    which stood before every element of [l] in the unsorted list, in front
    of the first element whose key is not strictly greater, so that entries
    with equal keys keep the order they had. *)
Fixpoint insert_desc (x : string * EngineScore)
  (l : list (string * EngineScore)) : list (string * EngineScore) :=
  match l with
  | [] => [x]
  | y :: rest =>
      if PrimFloat.ltb (total_score (snd x)) (total_score (snd y))
      then y :: insert_desc x rest
      else x :: y :: rest
  end.

Fixpoint sort_desc (l : list (string * EngineScore))
  : list (string * EngineScore) :=
  match l with
  | [] => []
  | x :: rest => insert_desc x (sort_desc rest)
  end.

(** The truth value of an optional string argument ([None] and the empty
    string are false). *)
Definition opt_truthy (s : option string) : bool :=
  match s with
  | None => false
  | Some s => negb (String.eqb s "")
  end.

(** The weights chosen at the head of [select]. *)
Definition select_weights (scenario : Scenario) (priority : option string)
  : Weights :=
  match priority with
  | Some p =>
      if opt_truthy priority && negb (String.eqb p "auto")
      then _get_priority_weights p
      else SCENARIO_WEIGHTS scenario
  | None => SCENARIO_WEIGHTS scenario
  end.

(** The scored and sorted candidate list [scores] of [select]. *)
Definition select_scores (self : EngineSelector) (context : AudioContext)
  (priority : option string) : list (string * EngineScore) :=
  let scenario := detect_scenario context in
  let weights := select_weights scenario priority in
  sort_desc
    (map (fun engine => (engine, _score_engine engine scenario context weights))
         (_available_engines self)).

(** The confidence computed by [select] from the sorted list. *)
Definition select_confidence (scores : list (string * EngineScore)) : float :=
  match scores with
  | (_, best_score) :: (_, second) :: _ =>
      let confidence :=
        ((total_score best_score - total_score second) / 100)%float in
      py_max 0 (py_min 1 confidence)
  | _ => 1%float
  end.

(** [EngineSelector.select]. *)
Definition select (self : EngineSelector) (context : AudioContext)
  (priority : option string) : pyresult SelectionResult :=
  let scenario := detect_scenario context in
  let scores := select_scores self context priority in
  match scores with
  | [] =>
      Ok {| recommended_engine := "paraformer-zh";
            fallback_engine := "moss";
            scenario := GENERAL;
            score := mkEngineScore "none" 0 0 0 0 0 [];
            confidence := 0%float;
            alternatives := [] |}
  | (best_engine, best_score) :: _ =>
      match list_first (dict_get_default FALLBACK_CHAIN best_engine ["moss"]) with
      | Raise e => Raise e
      | Ok fallback =>
          Ok {| recommended_engine := best_engine;
                fallback_engine := fallback;
                scenario := scenario;
                score := best_score;
                confidence := select_confidence scores;
                alternatives := map fst (firstn 3 (tl scores)) |}
      end
  end.

(** ** The client factory *)

(** The values that travel in [**kwargs]. *)
Inductive pyval : Type :=
| VNone
| VStr (s : string)
| VBool (b : bool).

Definition kwargs : Type := list (string * pyval).

(** Truth value of a Python value. *)
Definition truthy (v : pyval) : bool :=
  match v with
  | VNone => false
  | VStr s => negb (String.eqb s "")
  | VBool b => b
  end.

(** [a or b]. *)
Definition py_or (a b : pyval) : pyval := if truthy a then a else b.

(** [kwargs.get(key)] and [kwargs.get(key, default)]. *)
Definition kw_get (kw : kwargs) (key : string) : pyval :=
  dict_get_default kw key VNone.

Definition kw_get_default (kw : kwargs) (key : string) (default : pyval) : pyval :=
  dict_get_default kw key default.

(** The client classes the factory registers. *)
Inductive EngineClass : Type :=
| MossClient
| FunASRClient
| FunASRNanoClient.

(** What the factory observes of a constructed client. *)
Record ASRClient : Type := mkASRClient {
  client_class : EngineClass;
  client_args : kwargs;
  is_available : bool
}.

Definition _engines : list (string * EngineClass) :=
  [ ("moss", MossClient);
    ("funasr", FunASRClient);
    ("nano-2512", FunASRNanoClient);
    ("nano-mlt", FunASRNanoClient) ].

(** [ASRClientFactory.get_available_engines]. *)
Definition get_available_engines : list string := dict_keys _engines.

(** What a run of the factory does besides returning: the constructor calls
    it makes and the lines it prints. *)
Inductive event : Type :=
| Construct (engine : string) (args : kwargs)
| PrintInitFailed (engine : string) (e : pyexn)
| PrintFallback (engine : string)
| PrintSelection (result : SelectionResult).

(** A computation that may raise and that records its events in order. *)
Definition M (A : Type) : Type := (pyresult A * list event)%type.

Definition ret {A : Type} (a : A) : M A := (Ok a, []).

Definition raise {A : Type} (e : pyexn) : M A := (Raise e, []).

Definition emit (ev : event) : M unit := (Ok tt, [ev]).

Definition bind {A B : Type} (m : M A) (k : A -> M B) : M B :=
  match m with
  | (Ok a, w) => let '(r, w') := k a in (r, (w ++ w')%list)
  | (Raise e, w) => (Raise e, w)
  end.

(** [try: m  except Exception as e: h e]. *)
Definition try_except {A : Type} (m : M A) (h : pyexn -> M A) : M A :=
  match m with
  | (Ok a, w) => (Ok a, w)
  | (Raise e, w) => let '(r, w') := h e in (r, (w ++ w')%list)
  end.

Notation "x <- m ;; k" := (bind m (fun x => k))
  (at level 61, m at next level, right associativity).
Notation "m ;;; k" := (bind m (fun _ => k))
  (at level 61, right associativity).

Definition outcome {A : Type} (m : M A) : pyresult A := fst m.
Definition events {A : Type} (m : M A) : list event := snd m.

Section Factory.

(** Calling a client class with keyword arguments: the engines are outside
    the subsystem, so their constructors are a parameter. *)
Variable instantiate : EngineClass -> kwargs -> pyresult ASRClient.

(** [ASRClientFactory.create]. *)
Definition create (engine : string) (args : kwargs) : M ASRClient :=
  match dict_get _engines engine with
  | None => raise (ValueError ("Unknown ASR engine: " ++ engine))
  | Some cls => emit (Construct engine args) ;;; (instantiate cls args, [])
  end.

(** The [fallback_kwargs] computed at the head of [create_with_fallback]. *)
Definition fallback_kwargs_of (fallback_engine : string) (kw : kwargs) : kwargs :=
  if String.eqb fallback_engine "moss" then
    [("api_key", kw_get_default kw "api_key" (VStr ""))]
  else if String.eqb fallback_engine "funasr" then
    [("model", py_or (kw_get kw "model")
                     (kw_get_default kw "funasr_model" (VStr "paraformer-zh")));
     ("device", py_or (kw_get kw "device")
                      (kw_get_default kw "funasr_device" (VStr "cpu")))]
  else kw.

(** The [primary_kwargs] computed inside the [try] block. *)
Definition primary_kwargs_of (primary_engine : string) (kw : kwargs) : kwargs :=
  if String.eqb primary_engine "funasr" then
    [("model", py_or (kw_get kw "model")
                     (kw_get_default kw "funasr_model" (VStr "paraformer-zh")));
     ("device", py_or (kw_get kw "device")
                      (kw_get_default kw "funasr_device" (VStr "cpu")));
     ("enable_diarization", kw_get_default kw "enable_diarization" (VBool false))]
  else if str_in primary_engine ["nano-2512"; "nano-mlt"] then
    [("model", py_or (kw_get kw "model") (VStr primary_engine));
     ("device", py_or (kw_get kw "device")
                      (kw_get_default kw "nano_device" (VStr "cpu")))]
  else if String.eqb primary_engine "moss" then
    [("api_key", kw_get_default kw "api_key" (VStr ""))]
  else kw.

(** The [try] block of [create_with_fallback] with its handler: the
    client when the primary is built and available, [None] when control
    falls through to the fallback part. *)
Definition try_primary (primary_engine : string) (kw : kwargs)
  : M (option ASRClient) :=
  try_except
    (client <- create primary_engine (primary_kwargs_of primary_engine kw) ;;
     if is_available client then ret (Some client) else ret None)
    (fun e => emit (PrintInitFailed primary_engine e) ;;; ret None).

(** The part of [create_with_fallback] after the [try] statement. *)
Definition do_fallback (primary_engine fallback_engine : string)
  (fallback_kwargs : kwargs) : M ASRClient :=
  let no_fallback : M ASRClient :=
    raise (RuntimeError ("无法初始化 " ++ primary_engine ++ "，且无回退选项")) in
  if str_in primary_engine ["funasr"; "nano-2512"; "nano-mlt"] then
    emit (PrintFallback fallback_engine) ;;;
    (if String.eqb fallback_engine "moss" then
       if negb (truthy (kw_get fallback_kwargs "api_key"))
       then raise (RuntimeError "无法回退到 MOSS：缺少 API Key")
       else create "moss" fallback_kwargs
     else if String.eqb fallback_engine "funasr" then
       create "funasr" fallback_kwargs
     else no_fallback)
  else no_fallback.

(** [ASRClientFactory.create_with_fallback]. *)
Definition create_with_fallback (primary_engine fallback_engine : string)
  (kw : kwargs) : M ASRClient :=
  let fallback_kwargs := fallback_kwargs_of fallback_engine kw in
  attempt <- try_primary primary_engine kw ;;
  match attempt with
  | Some client => ret client
  | None => do_fallback primary_engine fallback_engine fallback_kwargs
  end.

(** [create_with_fallback] called without [fallback_engine]. *)
Definition create_with_fallback_default (primary_engine : string)
  (kw : kwargs) : M ASRClient :=
  create_with_fallback primary_engine "moss" kw.

(** The selection made at the head of [create_smart]. *)
Definition create_smart_selection (context : AudioContext)
  : pyresult SelectionResult :=
  let selector := EngineSelector_init (Some get_available_engines) in
  select selector context None.

(** [ASRClientFactory.create_smart].  The lines printed under [explain]
    all show fields of [result]; they are recorded as one event. *)
Definition create_smart (context : AudioContext) (explain : bool)
  (kw : kwargs) : M (ASRClient * SelectionResult) :=
  result <- (create_smart_selection context, []) ;;
  (if explain then emit (PrintSelection result) else ret tt) ;;;
  client <- create_with_fallback (recommended_engine result)
              (fallback_engine result) kw ;;
  ret (client, result).

End Factory.

(** A constructor table for examples: the Moss client is built from any
    arguments and is available exactly when its [api_key] is non-empty, as
    [MossClient.is_available] has it; the two local engines are built and
    available when [local_ok] holds and raise otherwise, each with a cause
    of its own. *)
Definition stub_instantiate (local_ok : bool) (cls : EngineClass)
  (args : kwargs) : pyresult ASRClient :=
  match cls with
  | MossClient => Ok (mkASRClient MossClient args (truthy (kw_get args "api_key")))
  | FunASRClient =>
      if local_ok then Ok (mkASRClient FunASRClient args true)
      else Raise (ConstructionError "funasr model could not be loaded")
  | FunASRNanoClient =>
      if local_ok then Ok (mkASRClient FunASRNanoClient args true)
      else Raise (ConstructionError "nano model could not be loaded")
  end.

(** ** The specification's readings, to compare the code with *)

(** The classifier as the specification words it: an ordered list of rules,
    the first one that matches wins, GENERAL when none does. *)
Definition classify_rules : list ((AudioContext -> bool) * Scenario) :=
  [ (fun c => is_streaming c, REALTIME);
    (fun c => String.eqb (language_hint c) "en"
              || String.eqb (language_hint c) "multi", MULTILINGUAL);
    (fun c => PrimFloat.ltb (duration_seconds c) 5
              && String.eqb (priority c) "latency", COMMAND);
    (fun c => (estimated_speakers c >? 1)%Z, MEETING);
    (fun c => PrimFloat.ltb 60 (duration_seconds c)
              && String.eqb (priority c) "accuracy", TRANSCRIPTION) ].

Fixpoint first_match (rules : list ((AudioContext -> bool) * Scenario))
  (c : AudioContext) : Scenario :=
  match rules with
  | [] => GENERAL
  | (applies, s) :: rest => if applies c then s else first_match rest c
  end.

Definition classify (c : AudioContext) : Scenario :=
  first_match classify_rules c.

(** [clamp(x, lo, hi)]: [lo] below the interval, [hi] above it, [x] inside. *)
Definition clamp (x lo hi : float) : float :=
  if PrimFloat.ltb x lo then lo
  else if PrimFloat.ltb hi x then hi
  else x.

(** An engine identifier has an entry in the capability registry. *)
Definition registered (engine : string) : Prop :=
  dict_mem ENGINE_CAPABILITIES engine = true.

(** The degraded result [select] returns when there is nothing to rank. *)
Definition degraded_result : SelectionResult :=
  {| recommended_engine := "paraformer-zh";
     fallback_engine := "moss";
     scenario := GENERAL;
     score := mkEngineScore "none" 0 0 0 0 0 [];
     confidence := 0%float;
     alternatives := [] |}.

(** The key [select] sorts on. *)
Definition total_of (x : string * EngineScore) : float := total_score (snd x).

(** The entries of a scored list whose total compares equal to [t], in the
    order of the list. *)
Definition with_total (t : float) (l : list (string * EngineScore))
  : list (string * EngineScore) :=
  filter (fun x => PrimFloat.eqb (total_of x) t) l.

(** The primary attempt of [create_with_fallback] did not deliver a client:
    construction raised, or the instance reports itself unavailable. *)
Definition primary_failed
  (instantiate : EngineClass -> kwargs -> pyresult ASRClient)
  (primary_engine : string) (kw : kwargs) : bool :=
  match outcome (create instantiate primary_engine
                   (primary_kwargs_of primary_engine kw)) with
  | Ok client => negb (is_available client)
  | Raise _ => true
  end.

(** The guards under which the code reaches a constructor call for the
    fallback. *)
Definition fallback_reachable (primary_engine fallback_engine : string)
  (kw : kwargs) : bool :=
  str_in primary_engine ["funasr"; "nano-2512"; "nano-mlt"]
  && ((String.eqb fallback_engine "moss"
       && truthy (kw_get (fallback_kwargs_of fallback_engine kw) "api_key"))
      || String.eqb fallback_engine "funasr").

(** Some constructor call for [engine] is among the events. *)
Definition constructs (engine : string) (evs : list event) : Prop :=
  exists args, In (Construct engine args) evs.

(** [x] ranks at or above [y]: the total of [y] is at most that of [x]. *)
Definition at_or_above (x y : string * EngineScore) : Prop :=
  PrimFloat.leb (total_of y) (total_of x) = true.

(** The total [select] computes for a candidate. *)
Definition candidate_total (ctx : AudioContext) (prio : option string)
  (engine : string) : float :=
  total_score
    (_score_engine engine (detect_scenario ctx) ctx
       (select_weights (detect_scenario ctx) prio)).

(** ** A finite cover of the scorer's inputs

    The total of a score depends on the engine only through its registry
    entry, on the context only through the two tests on the language hint,
    and [select] draws the weights from four rows; so every total [select]
    can meet is the total of one of the combinations below. *)

Definition all_scenarios : list Scenario :=
  [REALTIME; TRANSCRIPTION; MEETING; MULTILINGUAL; COMMAND; GENERAL].

Definition cover_engines : list string :=
  (dict_keys ENGINE_CAPABILITIES ++ [""])%list.

Definition cover_hints : list string := ["zh"; "en"; "auto"].

Definition cover_weights (sc : Scenario) : list Weights :=
  [SCENARIO_WEIGHTS sc; mkWeights 0.6 0.3 0.1; mkWeights 0.2 0.7 0.1;
   mkWeights 0.4 0.4 0.2].

Definition hint_context (hint : string) : AudioContext :=
  mkAudioContext None 0 1 hint false "balanced".

Definition cover_total (sc : Scenario) (hint : string) (w : Weights)
  (engine : string) : float :=
  total_score (_score_engine engine sc (hint_context hint) w).

(** What is checked of two totals: they are comparable, and the confidence
    the code computes from them is the clamped margin. *)
Definition pair_ok (t1 t2 : float) : bool :=
  let margin := ((t1 - t2) / 100)%float in
  implb (negb (PrimFloat.ltb t1 t2)) (PrimFloat.leb t2 t1)
  && PrimFloat.Leibniz.eqb (py_max 0 (py_min 1 margin)) (clamp margin 0 1).

Definition cover_ok : bool :=
  forallb (fun sc =>
    forallb (fun hint =>
      forallb (fun w =>
        forallb (fun e1 =>
          forallb (fun e2 =>
            pair_ok (cover_total sc hint w e1) (cover_total sc hint w e2))
            cover_engines)
          cover_engines)
        (cover_weights sc))
      cover_hints)
    all_scenarios.

(** ** Further checks over the cover *)

(** The registry entry of an engine, the empty dict being [None]. *)
Definition capabilities_of (engine : string) : option EngineCapability :=
  dict_get ENGINE_CAPABILITIES engine.

(** [<=] is transitive on three totals. *)
Definition triple_ok (t1 t2 t3 : float) : bool :=
  implb (PrimFloat.leb t1 t2 && PrimFloat.leb t2 t3) (PrimFloat.leb t1 t3).

Definition cover_transitive : bool :=
  forallb (fun sc =>
    forallb (fun hint =>
      forallb (fun w =>
        forallb (fun e1 =>
          forallb (fun e2 =>
            forallb (fun e3 =>
              triple_ok (cover_total sc hint w e1) (cover_total sc hint w e2)
                        (cover_total sc hint w e3))
              cover_engines)
            cover_engines)
          cover_engines)
        (cover_weights sc))
      cover_hints)
    all_scenarios.

(** Whenever the first of two totals is not below the second, the margin
    between them, divided by 100, is left as it is by the clamp of
    [select]. *)
Definition margin_unclamped (t1 t2 : float) : bool :=
  let margin := ((t1 - t2) / 100)%float in
  implb (negb (PrimFloat.ltb t1 t2))
        (PrimFloat.Leibniz.eqb (py_max 0 (py_min 1 margin)) margin).

Definition cover_unclamped : bool :=
  forallb (fun sc =>
    forallb (fun hint =>
      forallb (fun w =>
        forallb (fun e1 =>
          forallb (fun e2 =>
            margin_unclamped (cover_total sc hint w e1) (cover_total sc hint w e2))
            cover_engines)
          cover_engines)
        (cover_weights sc))
      cover_hints)
    all_scenarios.

(** Under scenario [sc], with the weights [ws] and the language hints
    [hints], every engine whose registry entry passes [good] totals strictly
    more than every engine whose entry does not. *)
Definition cover_separates (sc : Scenario) (ws : list Weights)
  (hints : list string) (good : option EngineCapability -> bool) : bool :=
  forallb (fun hint =>
    forallb (fun w =>
      forallb (fun e1 =>
        forallb (fun e2 =>
          implb (good (capabilities_of e1) && negb (good (capabilities_of e2)))
                (PrimFloat.ltb (cover_total sc hint w e2) (cover_total sc hint w e1)))
          cover_engines)
        cover_engines)
      ws)
    hints.

(** The capability tests of the three penalties of [_score_engine]. *)
Definition supports_streaming (c : option EngineCapability) : bool :=
  cap_get c streaming false.

Definition supports_diarization (c : option EngineCapability) : bool :=
  cap_get c diarization false.

Definition is_multilingual (c : option EngineCapability) : bool :=
  negb (cap_get c languages 1 <? 5)%Z.

(** ** Reading the events of a factory run *)

(** The constructor calls among the events, in order. *)
Fixpoint construct_calls (evs : list event) : list (string * kwargs) :=
  match evs with
  | [] => []
  | Construct engine args :: rest => (engine, args) :: construct_calls rest
  | _ :: rest => construct_calls rest
  end.

(** The keyword parameters of the three client constructors
    ([MossClient.__init__], [FunASRClient.__init__],
    [FunASRNanoClient.__init__]). *)
Definition accepted_params (cls : EngineClass) : list string :=
  match cls with
  | MossClient => ["api_key"; "model"]
  | FunASRClient => ["model"; "device"; "enable_diarization"]
  | FunASRNanoClient => ["model"; "device"]
  end.


(** ** Callers of the factory *)

(** *** [VoiceIME.__init__] ([voice_ime.py]): creating the ASR client *)

(** What the constructor of [VoiceIME] prints and does while it creates its
    client: the events of the factory, and its own lines. *)
Inductive ime_event : Type :=
| FactoryEvent (e : event)
| PrintSmartMode
| PrintInitEngine (asr_engine : string)
| PrintUsingEngine (client : ASRClient)
| PrintConfidence (c : float).

(** The local [scenario_map]. *)
Definition scenario_map : list (string * Scenario) :=
  [ ("realtime", REALTIME);
    ("transcription", TRANSCRIPTION);
    ("meeting", MEETING);
    ("multilingual", MULTILINGUAL);
    ("command", COMMAND);
    ("general", GENERAL) ].

(** [context.language_hint = hint], the assignment to the field. *)
Definition set_language_hint (context : AudioContext) (hint : string)
  : AudioContext :=
  {| audio_path := audio_path context;
     duration_seconds := duration_seconds context;
     estimated_speakers := estimated_speakers context;
     language_hint := hint;
     is_streaming := is_streaming context;
     priority := priority context |}.

(** The context built in smart mode: the recording is a stream of unknown
    length, and a scenario name the map knows is stored in the language
    hint. *)
Definition smart_context (scenario : option string) (prio : string)
  : AudioContext :=
  let context := mkAudioContext None 0 1 "auto" true prio in
  match scenario with
  | Some s =>
      if opt_truthy scenario && dict_mem scenario_map s
      then set_language_hint context s
      else context
  | None => context
  end.

Section Callers.

Variable instantiate : EngineClass -> kwargs -> pyresult ASRClient.

(** The part of [VoiceIME.__init__] that creates [self.client] and
    [self.selection_result]. *)
Definition VoiceIME_init_client (asr_engine : string)
  (smart_mode explain : bool) (scenario : option string) (prio : string)
  (kw : kwargs)
  : pyresult (ASRClient * option SelectionResult) * list ime_event :=
  if smart_mode then
    let context := smart_context scenario prio in
    match create_smart instantiate context explain kw with
    | (Raise e, evs) => (Raise e, PrintSmartMode :: map FactoryEvent evs)
    | (Ok (client, selection_result), evs) =>
        (Ok (client, Some selection_result),
         (PrintSmartMode :: map FactoryEvent evs
          ++ [PrintUsingEngine client]
          ++ (if explain
              then [PrintConfidence (confidence selection_result)]
              else []))%list)
    end
  else
    match create_with_fallback instantiate asr_engine "moss" kw with
    | (Raise e, evs) => (Raise e, PrintInitEngine asr_engine :: map FactoryEvent evs)
    | (Ok client, evs) =>
        (Ok (client, None),
         (PrintInitEngine asr_engine :: map FactoryEvent evs
          ++ [PrintUsingEngine client])%list)
    end.

(** *** [transcribe] ([service/api/asr.py]): choosing the engine *)

(** [ASRModel] of [service/models/request.py] and its values. *)
Inductive ASRModel : Type :=
| PARAFORMER_ZH
| NANO_2512
| SENSEVOICE
| MOSS.

Definition ASRModel_value (model : ASRModel) : string :=
  match model with
  | PARAFORMER_ZH => "paraformer-zh"
  | NANO_2512 => "nano-2512"
  | SENSEVOICE => "sensevoice"
  | MOSS => "moss"
  end.

(** The [engine_name] computed in [transcribe]. *)
Definition transcribe_engine_name (model : ASRModel) : string :=
  if str_in (ASRModel_value model) get_available_engines
  then ASRModel_value model
  else "funasr".

(** The [asr_client] created in [transcribe]: no keyword argument is
    passed. *)
Definition transcribe_client (model : ASRModel) : M ASRClient :=
  create instantiate (transcribe_engine_name model) [].

End Callers.

(** ** The engine manager ([engine/__init__.py]) *)

(** [d[key] = value]: an existing key keeps its place, a new one goes to the
    end. *)
Fixpoint dict_set {V : Type} (d : list (string * V)) (key : string) (value : V)
  : list (string * V) :=
  match d with
  | [] => [(key, value)]
  | (k, v) :: rest =>
      if String.eqb k key then (k, value) :: rest
      else (k, v) :: dict_set rest key value
  end.

(** [del d[key]]. *)
Fixpoint dict_del {V : Type} (d : list (string * V)) (key : string)
  : list (string * V) :=
  match d with
  | [] => []
  | (k, v) :: rest =>
      if String.eqb k key then rest else (k, v) :: dict_del rest key
  end.

Module Engine.

Inductive EngineType : Type :=
| ASR
| TTS
| SPEAKER.

Definition EngineType_eqb (a b : EngineType) : bool :=
  match a, b with
  | ASR, ASR | TTS, TTS | SPEAKER, SPEAKER => true
  | _, _ => false
  end.


Record EngineConfig : Type := mkEngineConfig {
  name : string;
  type : EngineType;
  enabled : bool;
  priority : Z;
  fallback : option string;
  display_name : string;
  description : string;
  capabilities : list string;
  params : kwargs
}.

(** [EngineInfo]; its fields carry the prefix [info_] where [EngineConfig]
    has a field of the same name. *)
Record EngineInfo : Type := mkEngineInfo {
  info_name : string;
  info_type : EngineType;
  info_display_name : string;
  info_description : string;
  info_capabilities : list string;
  available : bool;
  info_priority : Z;
  is_default : bool
}.

(** The state of an [EngineManager]: [_configs], a dict per engine type.
    [_factories] never changes: the ASR and TTS factories, none for
    SPEAKER. *)
Record EngineManager : Type := mkEngineManager {
  _configs : EngineType -> list (string * EngineConfig)
}.

(** [self._configs[engine_type] = d]. *)
Definition set_configs (self : EngineManager) (engine_type : EngineType)
  (d : list (string * EngineConfig)) : EngineManager :=
  mkEngineManager
    (fun t => if EngineType_eqb t engine_type then d else _configs self t).

(** [EngineManager.register_engine]. *)
Definition register_engine (self : EngineManager) (config : EngineConfig)
  : EngineManager :=
  set_configs self (type config)
    (dict_set (_configs self (type config)) (name config) config).

(** [EngineManager.unregister_engine]. *)
Definition unregister_engine (self : EngineManager) (engine_type : EngineType)
  (engine : string) : EngineManager :=
  if dict_mem (_configs self engine_type) engine
  then set_configs self engine_type (dict_del (_configs self engine_type) engine)
  else self.

(** [EngineManager.get_engine_config]. *)
Definition get_engine_config (self : EngineManager) (engine_type : EngineType)
  (engine : string) : option EngineConfig :=
  dict_get (_configs self engine_type) engine.

(** [EngineManager._register_default_engines], from the empty tables. *)
Definition EngineManager_init : EngineManager :=
  let self := mkEngineManager (fun _ => []) in
  let self := register_engine self
    (mkEngineConfig "funasr" ASR true 100 (Some "nano-2512") "FunASR"
       "阿里达摩院 FunASR，本地语音识别"
       ["streaming"; "diarization"; "timestamps"]
       [("model", VStr "paraformer-zh"); ("device", VStr "cpu")]) in
  let self := register_engine self
    (mkEngineConfig "nano-2512" ASR true 90 (Some "funasr") "Fun-ASR-Nano-2512"
       "轻量级实时流式 ASR，<600ms 延迟"
       ["streaming"; "realtime"]
       [("model", VStr "nano-2512")]) in
  let self := register_engine self
    (mkEngineConfig "moss" ASR true 50 (Some "funasr") "MOSS 云端"
       "MOSS 云端语音识别 API"
       ["cloud"; "high-accuracy"]
       [("api_key", VStr "")]) in
  let self := register_engine self
    (mkEngineConfig "sherpa-vits" TTS true 100 None "Sherpa-ONNX VITS"
       "VITS 中文语音合成，187 种音色"
       ["multi-voice"; "emotions"]
       [("model", VStr "vits-zh-fanchen-C")]) in
  register_engine self
    (mkEngineConfig "sherpa-kokoro" TTS true 80 None "Sherpa-ONNX Kokoro"
       "Kokoro 多语言语音合成，103 种音色"
       ["multi-lang"; "multi-voice"]
       [("model", VStr "kokoro")]).

(** [max((c.priority for c in d.values()), default=0)]. *)
Definition max_priority (d : list (string * EngineConfig)) : Z :=
  match map (fun kv => priority (snd kv)) d with
  | [] => 0%Z
  | p :: ps => fold_left Z.max ps p
  end.

(** The sort key [(-x.priority, x.name)] and the order of tuples on it. *)
Definition info_key_lt (a b : EngineInfo) : bool :=
  (- info_priority a <? - info_priority b)%Z
  || ((- info_priority a =? - info_priority b)%Z
      && String.ltb (info_name a) (info_name b)).

(** [engines.sort(key=...)]: the stable sort of the builtin, ascending. *)
Fixpoint insert_info (x : EngineInfo) (l : list EngineInfo) : list EngineInfo :=
  match l with
  | [] => [x]
  | y :: rest =>
      if info_key_lt y x then y :: insert_info x rest else x :: y :: rest
  end.

Fixpoint sort_infos (l : list EngineInfo) : list EngineInfo :=
  match l with
  | [] => []
  | x :: rest => insert_info x (sort_infos rest)
  end.


Section Manager.

(** The two factories the manager holds.  The ASR factory is the one above,
    over the client constructors; of the TTS factory the manager uses
    [is_available] and [create]. *)
Variable instantiate : EngineClass -> kwargs -> pyresult ASRClient.
Variable TTSClient : Type.
Variable tts_is_available : string -> pyresult bool.
Variable tts_create : string -> kwargs -> pyresult TTSClient.


(** The [available] flag computed in [list_engines]: the ASR factory has no
    [is_available] attribute, the TTS factory is asked and an exception
    counts as unavailable, and SPEAKER has no factory. *)
Definition engine_available (engine_type : EngineType) (engine : string) : bool :=
  match engine_type with
  | ASR => true
  | TTS =>
      match tts_is_available engine with
      | Ok b => b
      | Raise _ => false
      end
  | SPEAKER => false
  end.

(** [EngineManager.list_engines]. *)
Definition list_engines (self : EngineManager) (engine_type : EngineType)
  : list EngineInfo :=
  let d := _configs self engine_type in
  sort_infos
    (map (fun kv =>
            let config := snd kv in
            {| info_name := fst kv;
               info_type := engine_type;
               info_display_name := display_name config;
               info_description := description config;
               info_capabilities := capabilities config;
               available := engine_available engine_type (fst kv);
               info_priority := priority config;
               is_default := (priority config =? max_priority d)%Z |})
         d).


(** [EngineManager.get_default_engine]. *)
Definition get_default_engine (self : EngineManager) (engine_type : EngineType)
  : option string :=
  let engines := list_engines self engine_type in
  match find is_default engines with
  | Some engine => Some (info_name engine)
  | None =>
      match engines with
      | engine :: _ => Some (info_name engine)
      | [] => None
      end
  end.

(** [EngineManager.get_engine_info]. *)
Definition get_engine_info (self : EngineManager) (engine_type : EngineType)
  (engine : string) : option EngineInfo :=
  find (fun e => String.eqb (info_name e) engine) (list_engines self engine_type).




End Manager.

End Engine.

(** Every table of the manager has each key once, as a dict has. *)
Definition manager_well_formed (self : Engine.EngineManager) : Prop :=
  forall t, NoDup (dict_keys (Engine._configs self t)).

(** [a] is listed before [b] by the key [(-priority, name)]: its priority is
    higher, or equal with a name that is not after the name of [b]. *)
Definition ranks_before (a b : Engine.EngineInfo) : Prop :=
  (Engine.info_priority b < Engine.info_priority a)%Z
  \/ (Engine.info_priority a = Engine.info_priority b
      /\ String.ltb (Engine.info_name b) (Engine.info_name a) = false).


(** The entry [list_engines] builds for the configuration [c] registered
    under the name [n]. *)
Definition listed_info (tts_is_available : string -> pyresult bool)
  (self : Engine.EngineManager) (t : Engine.EngineType) (n : string)
  (c : Engine.EngineConfig) : Engine.EngineInfo :=
  {| Engine.info_name := n;
     Engine.info_type := t;
     Engine.info_display_name := Engine.display_name c;
     Engine.info_description := Engine.description c;
     Engine.info_capabilities := Engine.capabilities c;
     Engine.available := Engine.engine_available tts_is_available t n;
     Engine.info_priority := Engine.priority c;
     Engine.is_default :=
       (Engine.priority c =? Engine.max_priority (Engine._configs self t))%Z |}.

(** * Properties *)

(** ** Scenario classification *)

Lemma str_in_en_multi (s : string) :
  str_in s ["en"; "multi"] = String.eqb s "en" || String.eqb s "multi".
Proof.
  unfold str_in. simpl. now rewrite orb_false_r.
Qed.

(** C6. [detect_scenario] is a function from contexts to the six scenarios
    that agrees, on every context, with the six rules of the specification
    taken in order with the first match winning; and every context that is
    streaming with language hint "multi" is classified REALTIME, not
    MULTILINGUAL. *)
Theorem detect_scenario_first_match :
  (forall c : AudioContext, detect_scenario c = classify c)
  /\ (forall path duration speakers prio,
         detect_scenario
           (mkAudioContext path duration speakers "multi" true prio) = REALTIME).
Proof.
  split.
  - intros c. unfold detect_scenario, classify, classify_rules, first_match.
    rewrite str_in_en_multi, Z.gtb_ltb. reflexivity.
  - intros. reflexivity.
Qed.

(** The cases of the repository's [TestScenarioDetection] and
    [TestEngineSelector]. *)
Example test_scenario_detection :
  detect_scenario (mkAudioContext None 0 1 "auto" true "balanced") = REALTIME
  /\ detect_scenario (mkAudioContext None 0 1 "en" false "balanced") = MULTILINGUAL
  /\ detect_scenario (mkAudioContext None 0 1 "multi" false "balanced") = MULTILINGUAL
  /\ detect_scenario (mkAudioContext None 3 1 "auto" false "latency") = COMMAND
  /\ detect_scenario (mkAudioContext None 0 3 "auto" false "balanced") = MEETING
  /\ detect_scenario (mkAudioContext None 120 1 "auto" false "accuracy") = TRANSCRIPTION
  /\ detect_scenario default_context = GENERAL.
Proof. repeat split. Qed.

Example test_filter_engines :
  _available_engines (EngineSelector_init None)
  = ["nano-2512"; "paraformer-zh"; "sensevoice"; "moss"]
  /\ _available_engines (EngineSelector_init (Some ["nano-2512"; "moss"]))
     = ["nano-2512"; "moss"]
  /\ _available_engines (EngineSelector_init (Some ["unknown-engine"])) = [].
Proof. repeat split. Qed.

(** ** Scoring *)

(** C4, as the specification states it, fails: the three products are 47.5,
    24 and 14, and the scorer returns their sum, which is not 95.5. *)
Lemma realtime_score_is_not_95_5 :
  let ctx := mkAudioContext None 30 1 "auto" true "balanced" in
  detect_scenario ctx = REALTIME
  /\ dict_get ENGINE_CAPABILITIES "nano-2512"
     = Some (mkCapability 95 80 70 true false 31 ["nano-2512"; "nano-mlt"])
  /\ PrimFloat.eqb
       (total_score
          (_score_engine "nano-2512" REALTIME ctx (SCENARIO_WEIGHTS REALTIME)))
       95.5 = false
  /\ total_score
       (_score_engine "nano-2512" REALTIME ctx (SCENARIO_WEIGHTS REALTIME))
     <> 95.5%float.
Proof.
  cbv zeta. repeat split; try reflexivity.
  intros H.
  apply (f_equal (fun x => PrimFloat.eqb x 95.5)) in H.
  vm_compute in H. discriminate H.
Qed.

(** C4, amended. Scoring the engine with capability latency=95, accuracy=80,
    resource=70, streaming=true ("nano-2512") under the REALTIME weights
    (0.5, 0.3, 0.2), for a context whose language hint is not "zh" (so that
    no penalty and no language bonus applies), leaves the three component
    scores at 95, 80 and 70 and yields the total 95*0.5 + 80*0.3 + 70*0.2
    = 85.5. *)
Theorem realtime_score_is_85_5 (ctx : AudioContext) :
  String.eqb (language_hint ctx) "zh" = false ->
  let s := _score_engine "nano-2512" REALTIME ctx (SCENARIO_WEIGHTS REALTIME) in
  latency_score s = 95%float
  /\ accuracy_score s = 80%float
  /\ resource_score s = 70%float
  /\ total_score s = (95 * 0.5 + 80 * 0.3 + 70 * 0.2)%float
  /\ total_score s = 85.5%float.
Proof.
  intros Hzh. unfold _score_engine. cbn -[PrimFloat.mul PrimFloat.add].
  rewrite Hzh.
  destruct (String.eqb (language_hint ctx) "en"); cbn; repeat split; reflexivity.
Qed.

Lemma realtime_score_is_85_5_witness :
  total_score
    (_score_engine "nano-2512" REALTIME
       (mkAudioContext None 30 1 "auto" true "balanced")
       (SCENARIO_WEIGHTS REALTIME)) = 85.5%float.
Proof.
  apply (realtime_score_is_85_5 (mkAudioContext None 30 1 "auto" true "balanced")).
  reflexivity.
Defined.

(** The weights [select] can use: the scenario's row, or one of the three
    priority overrides. *)
Lemma select_weights_cases (sc : Scenario) (prio : option string) :
  In (select_weights sc prio)
     [SCENARIO_WEIGHTS sc; mkWeights 0.6 0.3 0.1; mkWeights 0.2 0.7 0.1;
      mkWeights 0.4 0.4 0.2].
Proof.
  destruct prio as [p|]; [|now left].
  unfold select_weights, opt_truthy, _get_priority_weights.
  destruct (String.eqb p ""), (String.eqb p "auto"),
    (String.eqb p "latency"), (String.eqb p "accuracy"); cbn; tauto.
Qed.

Lemma init_keeps_registered (l : list string) (engine : string) :
  In engine (_available_engines (EngineSelector_init (Some l)))
  <-> In engine l /\ registered engine.
Proof.
  unfold registered. cbn. apply filter_In.
Qed.

Lemma init_available_registered (available : option (list string)) :
  Forall registered (_available_engines (EngineSelector_init available)).
Proof.
  destruct available as [l|].
  - apply Forall_forall. intros e He. now apply init_keeps_registered in He.
  - cbn. repeat constructor.
Qed.

(** C5, as the specification states it, fails: an identifier the registry
    does not have is scored, with zeros, and a selector built from such an
    identifier drops it without a word and answers with the degraded
    result. *)
Lemma unknown_engine_is_scored_not_rejected :
  dict_get ENGINE_CAPABILITIES "whisper" = None
  /\ _score_engine "whisper" GENERAL default_context (SCENARIO_WEIGHTS GENERAL)
     = mkEngineScore "whisper" 0 0 0 0 0 []
  /\ EngineSelector_init (Some ["whisper"; "moss"]) = mkEngineSelector ["moss"]
  /\ select (EngineSelector_init (Some ["whisper"])) default_context None
     = Ok degraded_result.
Proof.
  repeat split; vm_compute; reflexivity.
Qed.

(** C5, amended. For every engine id absent from the capability registry,
    scoring it under any scenario, with any weights [select] can choose,
    produces a score (no error) whose three components and total are all
    0; and [__init__] drops such an id from a supplied candidate list, so
    that it is never among the engines [select] ranks. *)
Theorem unknown_engine_scores_zero
  (engine : string) (sc : Scenario) (ctx : AudioContext) (prio : option string) :
  dict_get ENGINE_CAPABILITIES engine = None ->
  let s := _score_engine engine sc ctx (select_weights sc prio) in
  (engine_name s = engine
   /\ latency_score s = 0%float /\ accuracy_score s = 0%float
   /\ resource_score s = 0%float /\ total_score s = 0%float)
  /\ forall l, ~ In engine (_available_engines (EngineSelector_init (Some l))).
Proof.
  intros Hnone. split.
  - pose proof (select_weights_cases sc prio) as Hw.
    unfold _score_engine. rewrite Hnone.
    destruct (String.eqb (language_hint ctx) "zh"),
      (String.eqb (language_hint ctx) "en");
      cbn in Hw;
      destruct Hw as [<-|[<-|[<-|[<-|[]]]]]; destruct sc;
      repeat split; vm_compute; reflexivity.
  - intros l Hin. apply init_keeps_registered in Hin.
    destruct Hin as [_ Hreg]. unfold registered, dict_mem in Hreg.
    rewrite Hnone in Hreg. discriminate Hreg.
Qed.

Lemma unknown_engine_scores_zero_witness :
  total_score
    (_score_engine "whisper" MEETING default_context
       (select_weights MEETING (Some "accuracy"))) = 0%float.
Proof.
  apply (unknown_engine_scores_zero "whisper" MEETING default_context
           (Some "accuracy")).
  reflexivity.
Defined.

(** ** The sorted candidate list *)

Lemma insert_desc_perm x l : Permutation (x :: l) (insert_desc x l).
Proof.
  induction l as [|y rest IH]; cbn.
  - apply Permutation_refl.
  - destruct (PrimFloat.ltb _ _).
    + eapply perm_trans; [apply perm_swap|]. now apply perm_skip.
    + apply Permutation_refl.
Qed.

Lemma sort_desc_perm l : Permutation l (sort_desc l).
Proof.
  induction l as [|x rest IH]; cbn.
  - constructor.
  - eapply perm_trans; [apply perm_skip, IH | apply insert_desc_perm].
Qed.

Lemma sort_desc_length l : List.length (sort_desc l) = List.length l.
Proof.
  symmetry. apply Permutation_length, sort_desc_perm.
Qed.

(** The engines of the sorted list are the available engines, each as often
    as it is available. *)
Lemma select_scores_engines self ctx prio :
  Permutation (_available_engines self)
              (map fst (select_scores self ctx prio)).
Proof.
  unfold select_scores.
  eapply perm_trans; [|apply Permutation_map, sort_desc_perm].
  rewrite map_map. cbn. rewrite map_id. apply Permutation_refl.
Qed.

Lemma select_scores_nil self ctx prio :
  select_scores self ctx prio = [] <-> _available_engines self = [].
Proof.
  split; intros H.
  - apply Permutation_nil. apply Permutation_sym.
    pose proof (select_scores_engines self ctx prio) as P.
    now rewrite H in P.
  - unfold select_scores. now rewrite H.
Qed.

Lemma select_scores_length self ctx prio :
  List.length (select_scores self ctx prio)
  = List.length (_available_engines self).
Proof.
  unfold select_scores. now rewrite sort_desc_length, length_map.
Qed.

(** ** The fallback table *)

(** Whatever the engine, the lookup [FALLBACK_CHAIN.get(engine, ['moss'])]
    has a first entry; it is registered and it is not the engine itself. *)
Lemma fallback_first (engine : string) :
  exists fb,
    list_first (dict_get_default FALLBACK_CHAIN engine ["moss"]) = Ok fb
    /\ fb <> engine /\ registered fb.
Proof.
  unfold dict_get_default, FALLBACK_CHAIN, dict_get.
  destruct (String.eqb_spec "nano-2512" engine) as [<-|H1];
    [eexists; repeat split; [discriminate]|].
  destruct (String.eqb_spec "paraformer-zh" engine) as [<-|H2];
    [eexists; repeat split; [discriminate]|].
  destruct (String.eqb_spec "sensevoice" engine) as [<-|H3];
    [eexists; repeat split; [discriminate]|].
  destruct (String.eqb_spec "moss" engine) as [<-|H4];
    [eexists; repeat split; [discriminate]|].
  exists "moss". repeat split. exact H4.
Qed.

(** [select] never raises, and its result is read off the sorted list. *)
Lemma select_returns self ctx prio :
  exists r, select self ctx prio = Ok r
  /\ match select_scores self ctx prio with
     | [] => r = degraded_result
     | (best_engine, best_score) :: rest =>
         recommended_engine r = best_engine
         /\ list_first (dict_get_default FALLBACK_CHAIN best_engine ["moss"])
            = Ok (fallback_engine r)
         /\ scenario r = detect_scenario ctx
         /\ score r = best_score
         /\ confidence r = select_confidence (select_scores self ctx prio)
         /\ alternatives r = map fst (firstn 3 rest)
     end.
Proof.
  unfold select.
  destruct (select_scores self ctx prio) as [|[best_engine best_score] rest].
  - eexists. split; reflexivity.
  - destruct (fallback_first best_engine) as [fb [Hfb _]].
    rewrite Hfb. eexists. split; [reflexivity|]. cbn. repeat split.
Qed.

(** ** Results of [select] *)

Lemma in_firstn_in {A : Type} (n : nat) (l : list A) (x : A) :
  In x (firstn n l) -> In x l.
Proof.
  revert l. induction n as [|n IH]; intros [|y l]; cbn; try tauto.
  intros [->|H]; [now left | right; now apply IH].
Qed.

(** C8. For every context and priority, when the selector has no candidate
    engine, [select] returns (it does not raise) the degraded result: the
    designated default engine "paraformer-zh", scenario GENERAL, confidence
    0.0 and no alternates. *)
Theorem select_empty_degraded self ctx prio :
  _available_engines self = [] ->
  exists r, select self ctx prio = Ok r
    /\ recommended_engine r = "paraformer-zh"
    /\ scenario r = GENERAL
    /\ confidence r = 0%float
    /\ alternatives r = [].
Proof.
  intros Hempty.
  destruct (select_returns self ctx prio) as [r [Hr Hshape]].
  apply (select_scores_nil self ctx prio) in Hempty.
  rewrite Hempty in Hshape. subst r.
  exists degraded_result. repeat split. exact Hr.
Qed.

Lemma select_empty_degraded_witness :
  exists r,
    select (EngineSelector_init (Some ["funasr"; "nano-mlt"]))
      (mkAudioContext None 120 3 "zh" true "accuracy") (Some "latency") = Ok r
    /\ recommended_engine r = "paraformer-zh"
    /\ scenario r = GENERAL
    /\ confidence r = 0%float
    /\ alternatives r = [].
Proof.
  apply (select_empty_degraded
           (EngineSelector_init (Some ["funasr"; "nano-mlt"]))).
  reflexivity.
Defined.

Lemma registered_moss : registered "moss".
Proof. reflexivity. Qed.

Lemma registered_paraformer : registered "paraformer-zh".
Proof. reflexivity. Qed.

(** C2. For every candidate list given to the selector and every context
    and priority, [select] returns a result, and every engine identifier in
    it (the recommended engine, the fallback engine and each alternative) has
    an entry in ENGINE_CAPABILITIES. *)
Theorem select_result_registered
  (available : option (list string)) (ctx : AudioContext) (prio : option string) :
  exists r, select (EngineSelector_init available) ctx prio = Ok r
    /\ registered (recommended_engine r)
    /\ registered (fallback_engine r)
    /\ Forall registered (alternatives r).
Proof.
  set (self := EngineSelector_init available).
  destruct (select_returns self ctx prio) as [r [Hr Hshape]].
  exists r. split; [exact Hr|].
  pose proof (init_available_registered available) as Hreg. fold self in Hreg.
  pose proof (select_scores_engines self ctx prio) as Hperm.
  destruct (select_scores self ctx prio) as [|[best_engine best_score] rest].
  - subst r. split; [apply registered_paraformer|].
    split; [apply registered_moss | constructor].
  - destruct Hshape as (Hbest & Hfb & _ & _ & _ & Halt).
    assert (Hall : Forall registered (best_engine :: map fst rest)).
    { apply Forall_forall. intros e He.
      rewrite Forall_forall in Hreg. apply Hreg.
      eapply Permutation_in; [apply Permutation_sym, Hperm | exact He]. }
    apply Forall_cons_iff in Hall. destruct Hall as [Hhead Htail].
    repeat split.
    + rewrite Hbest. exact Hhead.
    + destruct (fallback_first best_engine) as [fb (Hfirst & _ & Hfbreg)].
      rewrite Hfirst in Hfb. injection Hfb as <-. exact Hfbreg.
    + rewrite Halt. apply Forall_forall. intros e He.
      rewrite Forall_forall in Htail. apply Htail.
      apply in_map_iff in He. destruct He as [x [<- Hx]].
      apply in_map. eapply in_firstn_in. exact Hx.
Qed.

(** C9. For every selector, context and priority, the fallback engine of the
    returned result differs from its recommended engine.  The fallback is the
    process-wide default "moss" when there was nothing to rank, and otherwise
    the first entry of the recommended engine's fallback chain (of the default
    chain ["moss"] when the engine has no chain).  The registry holds four
    distinct engines, so the claim's proviso of two registered engines is
    met. *)
Theorem fallback_differs_from_recommended self ctx prio :
  exists r, select self ctx prio = Ok r
    /\ fallback_engine r <> recommended_engine r
    /\ match _available_engines self with
       | [] => fallback_engine r = "moss"
       | _ :: _ =>
           list_first
             (dict_get_default FALLBACK_CHAIN (recommended_engine r) ["moss"])
           = Ok (fallback_engine r)
       end
    /\ NoDup (dict_keys ENGINE_CAPABILITIES)
    /\ (2 <= List.length (dict_keys ENGINE_CAPABILITIES))%nat.
Proof.
  destruct (select_returns self ctx prio) as [r [Hr Hshape]].
  exists r. split; [exact Hr|].
  pose proof (select_scores_nil self ctx prio) as Hnil.
  assert (Hkeys : NoDup (dict_keys ENGINE_CAPABILITIES)
                  /\ (2 <= List.length (dict_keys ENGINE_CAPABILITIES))%nat).
  { split; [|cbn; lia].
    cbn. repeat constructor; cbn; intuition discriminate. }
  destruct (select_scores self ctx prio) as [|[best_engine best_score] rest].
  - subst r. rewrite (proj1 Hnil eq_refl). cbn.
    repeat split; try apply Hkeys. discriminate.
  - destruct Hshape as (Hbest & Hfb & _).
    destruct (fallback_first best_engine) as [fb (Hfirst & Hne & _)].
    rewrite Hfirst in Hfb. injection Hfb as Hfb.
    split; [rewrite Hbest, <- Hfb; exact Hne|].
    split; [|exact Hkeys].
    destruct (_available_engines self) as [|e es].
    + destruct Hnil as [_ Hnil]. discriminate (Hnil eq_refl).
    + rewrite Hbest, Hfirst, Hfb. reflexivity.
Qed.

(** ** The facade *)

Lemma create_smart_outcome instantiate ctx explain kw r :
  create_smart_selection ctx = Ok r ->
  match outcome (create_smart instantiate ctx explain kw) with
  | Ok (_, r') => r' = r
  | Raise _ => True
  end.
Proof.
  intros Hr. unfold create_smart, outcome. rewrite Hr.
  unfold bind at 1.
  destruct explain; cbn;
    destruct (create_with_fallback instantiate (recommended_engine r)
                (fallback_engine r) kw) as [[client|e] w]; cbn; trivial.
Qed.

(** C10. For every context, the selection made inside [create_smart]
    recommends "nano-2512" or "moss": the factory's registered names
    ("moss", "funasr", "nano-2512", "nano-mlt") are the candidate list, the
    selector keeps of them the ones its capability table ("nano-2512",
    "paraformer-zh", "sensevoice", "moss") has, which are exactly "moss" and
    "nano-2512"; so "paraformer-zh" and "sensevoice" are never recommended,
    and the result [create_smart] returns, when it returns, is that
    selection. *)
Theorem create_smart_recommends_nano_or_moss (ctx : AudioContext) :
  get_available_engines = ["moss"; "funasr"; "nano-2512"; "nano-mlt"]
  /\ dict_keys ENGINE_CAPABILITIES
     = ["nano-2512"; "paraformer-zh"; "sensevoice"; "moss"]
  /\ _available_engines (EngineSelector_init (Some get_available_engines))
     = ["moss"; "nano-2512"]
  /\ exists r, create_smart_selection ctx = Ok r
       /\ (recommended_engine r = "nano-2512" \/ recommended_engine r = "moss")
       /\ recommended_engine r <> "paraformer-zh"
       /\ recommended_engine r <> "sensevoice"
       /\ forall instantiate explain kw,
            match outcome (create_smart instantiate ctx explain kw) with
            | Ok (_, r') => r' = r
            | Raise _ => True
            end.
Proof.
  repeat (split; [reflexivity|]).
  unfold create_smart_selection.
  set (self := EngineSelector_init (Some get_available_engines)).
  destruct (select_returns self ctx None) as [r [Hr Hshape]].
  exists r. split; [exact Hr|].
  pose proof (select_scores_engines self ctx None) as Hperm.
  assert (Hbest : recommended_engine r = "nano-2512"
                  \/ recommended_engine r = "moss").
  { destruct (select_scores self ctx None) as [|[best_engine best_score] rest].
    - apply Permutation_sym, Permutation_nil in Hperm. discriminate Hperm.
    - destruct Hshape as [-> _].
      assert (Hin : In best_engine (_available_engines self)).
      { eapply Permutation_in; [apply Permutation_sym, Hperm | now left]. }
      cbn in Hin. intuition. }
  split; [exact Hbest|].
  split; [destruct Hbest as [-> | ->]; discriminate|].
  split; [destruct Hbest as [-> | ->]; discriminate|].
  intros instantiate explain kw.
  apply create_smart_outcome. exact Hr.
Qed.

(** ** Comparisons of binary64 values *)

Lemma ltb_leb (x y : float) : PrimFloat.ltb x y = true -> PrimFloat.leb x y = true.
Proof.
  rewrite FloatAxioms.ltb_spec, FloatAxioms.leb_spec. unfold SFltb, SFleb.
  destruct (SFcompare _ _) as [[]|]; intros; congruence.
Qed.

Lemma finite_cmp_eq (e1 e2 : Z) (m1 m2 : positive) :
  match (e1 ?= e2)%Z with
  | Eq => Pos.compare_cont Eq m1 m2
  | Lt => Lt
  | Gt => Gt
  end = Eq -> e1 = e2 /\ m1 = m2.
Proof.
  destruct (e1 ?= e2)%Z eqn:He; try discriminate.
  intros Hm. split; [now apply Z.compare_eq | now apply Pos.compare_eq].
Qed.

Lemma finite_cmp_opp_eq (e1 e2 : Z) (m1 m2 : positive) :
  match (e1 ?= e2)%Z with
  | Eq => CompOpp (Pos.compare_cont Eq m1 m2)
  | Lt => Gt
  | Gt => Lt
  end = Eq -> e1 = e2 /\ m1 = m2.
Proof.
  destruct (e1 ?= e2)%Z eqn:He; try discriminate.
  intros Hm. split; [now apply Z.compare_eq|].
  apply Pos.compare_eq. unfold Pos.compare.
  destruct (Pos.compare_cont Eq m1 m2); cbn in Hm; congruence.
Qed.

Lemma SFcompare_eq_eq (a b t : spec_float) :
  SFcompare a t = Some Eq -> SFcompare b t = Some Eq -> SFcompare a b = Some Eq.
Proof.
  destruct a as [sa|sa| |sa ma ea], b as [sb|sb| |sb mb eb],
    t as [st|st| |st mt et]; cbn; try discriminate; try reflexivity;
    try (destruct sa; discriminate); try (destruct sb; discriminate);
    try (destruct sa, st; discriminate); try (destruct sb, st; discriminate).
  - destruct sa, sb, st; try discriminate; reflexivity.
  - intros Ha Hb. injection Ha as Ha. injection Hb as Hb.
    destruct sa, sb, st; try discriminate.
    + destruct (finite_cmp_opp_eq ea et ma mt Ha) as [-> ->].
      destruct (finite_cmp_opp_eq eb et mb mt Hb) as [-> ->].
      rewrite Z.compare_refl.
      change (Some (CompOpp (Pos.compare mt mt)) = Some Eq).
      now rewrite Pos.compare_refl.
    + destruct (finite_cmp_eq ea et ma mt Ha) as [-> ->].
      destruct (finite_cmp_eq eb et mb mt Hb) as [-> ->].
      rewrite Z.compare_refl.
      change (Some (Pos.compare mt mt) = Some Eq).
      now rewrite Pos.compare_refl.
Qed.

Lemma eqb_eqb_not_ltb (x y t : float) :
  PrimFloat.eqb x t = true -> PrimFloat.eqb y t = true -> PrimFloat.ltb x y = false.
Proof.
  rewrite !FloatAxioms.eqb_spec, FloatAxioms.ltb_spec. unfold SFeqb, SFltb.
  destruct (SFcompare (Prim2SF x) (Prim2SF t)) as [[]|] eqn:Hx; try discriminate.
  destruct (SFcompare (Prim2SF y) (Prim2SF t)) as [[]|] eqn:Hy; try discriminate.
  intros _ _. now rewrite (SFcompare_eq_eq _ _ _ Hx Hy).
Qed.

(** The confidence computed by the code lies in the unit interval whatever
    the margin is. *)
Lemma py_clamp_unit (c : float) :
  PrimFloat.leb 0 (py_max 0 (py_min 1 c)) = true
  /\ PrimFloat.leb (py_max 0 (py_min 1 c)) 1 = true.
Proof.
  unfold py_min.
  destruct (PrimFloat.ltb c 1) eqn:Hc1; unfold py_max.
  - destruct (PrimFloat.ltb 0 c) eqn:H0c.
    + split; now apply ltb_leb.
    + split; reflexivity.
  - split; reflexivity.
Qed.

(** ** Order and stability of the sort *)

Lemma insert_desc_with_total (t : float) x l :
  with_total t (insert_desc x l) = with_total t (x :: l).
Proof.
  unfold with_total.
  induction l as [|y rest IH]; [reflexivity|].
  cbn [insert_desc].
  destruct (PrimFloat.ltb (total_score (snd x)) (total_score (snd y))) eqn:Hlt;
    [|reflexivity].
  cbn [filter] in *. rewrite IH.
  destruct (PrimFloat.eqb (total_of x) t) eqn:Hx;
    destruct (PrimFloat.eqb (total_of y) t) eqn:Hy; try reflexivity.
  unfold total_of in Hx, Hy.
  rewrite (eqb_eqb_not_ltb _ _ _ Hx Hy) in Hlt. discriminate Hlt.
Qed.

(** Entries with equal totals leave the sort in the order they entered it. *)
Lemma sort_desc_stable (t : float) l :
  with_total t (sort_desc l) = with_total t l.
Proof.
  induction l as [|x rest IH]; [reflexivity|].
  cbn [sort_desc]. rewrite insert_desc_with_total.
  unfold with_total in *. cbn [filter]. now rewrite IH.
Qed.

Lemma insert_desc_sorted x l :
  (forall y, In y l -> PrimFloat.ltb (total_of x) (total_of y) = false ->
             at_or_above x y) ->
  Sorted at_or_above l -> Sorted at_or_above (insert_desc x l).
Proof.
  intros Htotal Hsorted.
  induction Hsorted as [|y rest Hrest IH Hhd]; cbn [insert_desc].
  - repeat constructor.
  - destruct (PrimFloat.ltb (total_score (snd x)) (total_score (snd y))) eqn:Hlt.
    + constructor.
      * apply IH. intros z Hz. apply Htotal. now right.
      * destruct rest as [|z rest']; cbn [insert_desc].
        -- constructor. now apply ltb_leb.
        -- destruct (PrimFloat.ltb (total_score (snd x)) (total_score (snd z))).
           ++ constructor. now inversion Hhd.
           ++ constructor. now apply ltb_leb.
    + constructor; [now constructor|].
      constructor. apply Htotal; [now left | exact Hlt].
Qed.

Lemma sort_desc_sorted l :
  (forall x y, In x l -> In y l ->
     PrimFloat.ltb (total_of x) (total_of y) = false -> at_or_above x y) ->
  Sorted at_or_above (sort_desc l).
Proof.
  induction l as [|x rest IH]; intros Htotal; cbn [sort_desc].
  - constructor.
  - apply insert_desc_sorted.
    + intros y Hy. apply Htotal; [now left|].
      right. eapply Permutation_in; [apply Permutation_sym, sort_desc_perm | exact Hy].
    + apply IH. intros a b Ha Hb. apply Htotal; now right.
Qed.

(** ** Every total [select] meets is covered *)

Lemma cover_hint_exists (ctx : AudioContext) :
  exists hint, In hint cover_hints
    /\ String.eqb (language_hint ctx) "zh" = String.eqb hint "zh"
    /\ String.eqb (language_hint ctx) "en" = String.eqb hint "en".
Proof.
  destruct (String.eqb_spec (language_hint ctx) "zh") as [Hzh|Hzh].
  - exists "zh". rewrite Hzh. cbn. tauto.
  - destruct (String.eqb_spec (language_hint ctx) "en") as [Hen|Hen].
    + exists "en". cbn. tauto.
    + exists "auto". cbn. tauto.
Qed.

Lemma cover_engine_exists (engine : string) :
  exists e', In e' cover_engines
    /\ dict_get ENGINE_CAPABILITIES engine = dict_get ENGINE_CAPABILITIES e'.
Proof.
  unfold ENGINE_CAPABILITIES at 1. unfold dict_get at 1.
  destruct (String.eqb_spec "nano-2512" engine) as [<-|H1];
    [exists "nano-2512"; split; [cbn; tauto | reflexivity]|].
  destruct (String.eqb_spec "paraformer-zh" engine) as [<-|H2];
    [exists "paraformer-zh"; split; [cbn; tauto | reflexivity]|].
  destruct (String.eqb_spec "sensevoice" engine) as [<-|H3];
    [exists "sensevoice"; split; [cbn; tauto | reflexivity]|].
  destruct (String.eqb_spec "moss" engine) as [<-|H4];
    [exists "moss"; split; [cbn; tauto | reflexivity]|].
  exists "". split; [cbn; tauto | reflexivity].
Qed.

Lemma score_total_covered engine e' hint sc ctx w :
  String.eqb (language_hint ctx) "zh" = String.eqb hint "zh" ->
  String.eqb (language_hint ctx) "en" = String.eqb hint "en" ->
  dict_get ENGINE_CAPABILITIES engine = dict_get ENGINE_CAPABILITIES e' ->
  total_score (_score_engine engine sc ctx w) = cover_total sc hint w e'.
Proof.
  intros Hzh Hen Hcap. unfold cover_total, _score_engine.
  cbn [language_hint hint_context]. rewrite Hzh, Hen, Hcap.
  destruct (dict_get ENGINE_CAPABILITIES e') as [cap|]; destruct sc;
    cbn [Scenario_eqb cap_get];
    repeat match goal with
           | |- context [if ?b then _ else _] => destruct b
           end;
    reflexivity.
Qed.

Lemma all_scenarios_complete (sc : Scenario) : In sc all_scenarios.
Proof. destruct sc; cbn; tauto. Qed.

Lemma cover_ok_holds : cover_ok = true.
Proof. vm_compute. reflexivity. Qed.

(** Any two candidates of one call of [select] have totals that pass the
    check of [pair_ok]. *)
Lemma candidate_totals_ok ctx prio e1 e2 :
  pair_ok (candidate_total ctx prio e1) (candidate_total ctx prio e2) = true.
Proof.
  unfold candidate_total.
  set (sc := detect_scenario ctx). set (w := select_weights sc prio).
  destruct (cover_hint_exists ctx) as [hint (Hhint & Hzh & Hen)].
  destruct (cover_engine_exists e1) as [r1 [Hr1 Hc1]].
  destruct (cover_engine_exists e2) as [r2 [Hr2 Hc2]].
  rewrite (score_total_covered e1 r1 hint sc ctx w Hzh Hen Hc1).
  rewrite (score_total_covered e2 r2 hint sc ctx w Hzh Hen Hc2).
  pose proof cover_ok_holds as Hok. unfold cover_ok in Hok.
  rewrite forallb_forall in Hok.
  specialize (Hok sc (all_scenarios_complete sc)).
  rewrite forallb_forall in Hok. specialize (Hok hint Hhint).
  rewrite forallb_forall in Hok.
  specialize (Hok w (select_weights_cases sc prio)).
  rewrite forallb_forall in Hok. specialize (Hok r1 Hr1).
  rewrite forallb_forall in Hok. exact (Hok r2 Hr2).
Qed.

Lemma candidate_totals_comparable ctx prio e1 e2 :
  PrimFloat.ltb (candidate_total ctx prio e1) (candidate_total ctx prio e2) = false ->
  PrimFloat.leb (candidate_total ctx prio e2) (candidate_total ctx prio e1) = true.
Proof.
  intros Hlt. pose proof (candidate_totals_ok ctx prio e1 e2) as Hok.
  unfold pair_ok in Hok. apply andb_prop in Hok. destruct Hok as [Hcmp _].
  rewrite Hlt in Hcmp. exact Hcmp.
Qed.

Lemma candidate_margin_clamped ctx prio e1 e2 :
  let margin :=
    ((candidate_total ctx prio e1 - candidate_total ctx prio e2) / 100)%float in
  py_max 0 (py_min 1 margin) = clamp margin 0 1.
Proof.
  pose proof (candidate_totals_ok ctx prio e1 e2) as Hok.
  unfold pair_ok in Hok. apply andb_prop in Hok. destruct Hok as [_ Heq].
  now apply FloatAxioms.Leibniz.eqb_spec in Heq.
Qed.

(** The entries of the sorted list are the available engines with their
    scores. *)
Lemma select_scores_entries self ctx prio x :
  In x (select_scores self ctx prio) ->
  In (fst x) (_available_engines self)
  /\ total_of x = candidate_total ctx prio (fst x).
Proof.
  unfold select_scores. intros Hin.
  eapply Permutation_in in Hin; [|apply Permutation_sym, sort_desc_perm].
  apply in_map_iff in Hin. destruct Hin as [e [<- He]].
  split; [exact He | reflexivity].
Qed.

(** ** Ranking *)

(** The repository's [test_realtime_prefers_streaming]: with all four
    engines, a streaming context selects the one streaming engine. *)
Example test_realtime_prefers_streaming :
  select (EngineSelector_init None)
    (mkAudioContext None 0 1 "auto" true "balanced") None
  = Ok {| recommended_engine := "nano-2512";
          fallback_engine := "paraformer-zh";
          scenario := REALTIME;
          score := mkEngineScore "nano-2512" 85.5 95 80 70 0
                     ["原生流式支持，低延迟"];
          confidence := 0.376;
          alternatives := ["moss"; "paraformer-zh"; "sensevoice"] |}.
Proof. vm_compute. reflexivity. Qed.

(** C3, as the specification states it, fails.  In a MEETING context under
    the "balanced" override, "nano-2512" and "paraformer-zh" both total 68;
    they are ranked in the order they were supplied, so that the two orders
    of the same candidate set give different recommended engines, and the
    second ranks "paraformer-zh" above "nano-2512" although "nano-2512" is
    the smaller identifier. *)
Lemma tied_candidates_keep_supplied_order :
  let ctx := mkAudioContext None 600 3 "auto" false "balanced" in
  let prio := Some "balanced" in
  candidate_total ctx prio "nano-2512" = 68%float
  /\ candidate_total ctx prio "paraformer-zh" = 68%float
  /\ String.compare "nano-2512" "paraformer-zh" = Lt
  /\ select (EngineSelector_init (Some ["nano-2512"; "paraformer-zh"])) ctx prio
     = Ok {| recommended_engine := "nano-2512";
             fallback_engine := "paraformer-zh";
             scenario := MEETING;
             score := mkEngineScore "nano-2512" 68 95 40 70 0
                        ["不支持说话人分离"];
             confidence := 0;
             alternatives := ["paraformer-zh"] |}
  /\ select (EngineSelector_init (Some ["paraformer-zh"; "nano-2512"])) ctx prio
     = Ok {| recommended_engine := "paraformer-zh";
             fallback_engine := "sensevoice";
             scenario := MEETING;
             score := mkEngineScore "paraformer-zh" 68 50 90 60 0
                        ["支持说话人分离"];
             confidence := 0;
             alternatives := ["nano-2512"] |}.
Proof.
  cbv zeta. repeat split; vm_compute; reflexivity.
Qed.

Lemma with_total_map (t : float) (f : string -> EngineScore) (l : list string) :
  map fst (with_total t (map (fun e => (e, f e)) l))
  = filter (fun e => PrimFloat.eqb (total_score (f e)) t) l.
Proof.
  unfold with_total, total_of.
  induction l as [|e rest IH]; [reflexivity|].
  cbn [map filter snd].
  destruct (PrimFloat.eqb (total_score (f e)) t); cbn [map fst]; now rewrite IH.
Qed.

(** C3, amended.  In [select] the candidates are sorted by total score
    descending: the sorted list holds the available engines, and the total of
    each entry is at least that of the next.  Candidates whose totals are
    equal stay in the order in which they were supplied (there is no
    tie-break on the identifier).  The recommended engine and the alternates
    are the first four entries of that list. *)
Theorem select_ranking_sorted_stable self ctx prio :
  let scores := select_scores self ctx prio in
  Permutation (_available_engines self) (map fst scores)
  /\ Sorted at_or_above scores
  /\ (forall t : float,
        map fst (with_total t scores)
        = filter (fun e => PrimFloat.eqb (candidate_total ctx prio e) t)
                 (_available_engines self))
  /\ exists r, select self ctx prio = Ok r
       /\ (scores = []
           \/ recommended_engine r :: alternatives r
              = map fst (firstn 4 scores)).
Proof.
  cbv zeta. split; [apply select_scores_engines|]. split; [|split].
  - unfold select_scores. apply sort_desc_sorted.
    intros x y Hx Hy Hlt.
    apply in_map_iff in Hx. destruct Hx as [e1 [<- _]].
    apply in_map_iff in Hy. destruct Hy as [e2 [<- _]].
    apply (candidate_totals_comparable ctx prio e1 e2). exact Hlt.
  - intros t. unfold select_scores. rewrite sort_desc_stable.
    apply with_total_map.
  - destruct (select_returns self ctx prio) as [r [Hr Hshape]].
    exists r. split; [exact Hr|].
    destruct (select_scores self ctx prio) as [|[best_engine best_score] rest].
    + now left.
    + right. destruct Hshape as (-> & _ & _ & _ & _ & ->). reflexivity.
Qed.

(** ** Confidence *)

(** C7. For every selector, context and priority, [select] returns a result
    whose confidence lies between 0.0 and 1.0; with at least two candidates
    it is the margin between the two best totals divided by 100 and clamped
    to the unit interval, with exactly one candidate it is 1.0 (and with
    none, 0.0). *)
Theorem select_confidence_clamped self ctx prio :
  exists r, select self ctx prio = Ok r
    /\ PrimFloat.leb 0 (confidence r) = true
    /\ PrimFloat.leb (confidence r) 1 = true
    /\ List.length (select_scores self ctx prio)
       = List.length (_available_engines self)
    /\ match select_scores self ctx prio with
       | top :: second :: _ =>
           confidence r
           = clamp ((total_of top - total_of second) / 100)%float 0 1
       | [_] => confidence r = 1%float
       | [] => confidence r = 0%float
       end.
Proof.
  destruct (select_returns self ctx prio) as [r [Hr Hshape]].
  exists r. split; [exact Hr|].
  pose proof (select_scores_entries self ctx prio) as Hentries.
  pose proof (select_scores_length self ctx prio) as Hlen.
  destruct (select_scores self ctx prio) as [|[e1 s1] [|[e2 s2] rest]].
  - subst r. repeat split; try reflexivity. exact Hlen.
  - destruct Hshape as (_ & _ & _ & _ & -> & _). cbn.
    repeat split; try reflexivity. exact Hlen.
  - destruct Hshape as (_ & _ & _ & _ & -> & _).
    cbn [select_confidence].
    split; [apply py_clamp_unit|]. split; [apply py_clamp_unit|].
    split; [exact Hlen|].
    destruct (Hentries (e1, s1)) as [_ H1]; [now left|].
    destruct (Hentries (e2, s2)) as [_ H2]; [right; now left|].
    unfold total_of in *. cbn [snd fst] in *. rewrite H1, H2.
    apply candidate_margin_clamped.
Qed.

(** ** Fallback resolution *)

Lemma try_primary_failed instantiate primary_engine kw :
  primary_failed instantiate primary_engine kw = true ->
  outcome (try_primary instantiate primary_engine kw) = Ok None.
Proof.
  unfold primary_failed, try_primary, create, outcome.
  destruct (dict_get _engines primary_engine) as [cls|]; [|reflexivity].
  cbn. destruct (instantiate cls (primary_kwargs_of primary_engine kw))
    as [client|e]; cbn; [|reflexivity].
  destruct (is_available client); cbn; [discriminate | reflexivity].
Qed.

(** When the primary is built and reports itself available, it is what the
    operation returns, and the only constructor call is the primary's. *)
Lemma create_with_fallback_primary_ok
  instantiate primary_engine fallback_engine kw :
  primary_failed instantiate primary_engine kw = false ->
  create_with_fallback instantiate primary_engine fallback_engine kw
  = create instantiate primary_engine (primary_kwargs_of primary_engine kw).
Proof.
  unfold primary_failed, create_with_fallback, try_primary, create, outcome.
  destruct (dict_get _engines primary_engine) as [cls|]; [|discriminate].
  cbn. destruct (instantiate cls (primary_kwargs_of primary_engine kw))
    as [client|e]; cbn; [|discriminate].
  destruct (is_available client); cbn; [reflexivity | discriminate].
Qed.

(** C1, as the specification states it, fails.  With a primary "moss" that
    is built but reports itself unavailable (no API key) and a fallback
    "funasr" whose construction would succeed, the operation fails at once:
    the only constructor call is the primary's.  The same holds for the pair
    [create_smart] passes on, "nano-2512" with fallback "paraformer-zh".  And
    when primary and fallback both fail, the error raised is the fallback's
    alone. *)
Lemma fallback_not_attempted_for_moss :
  primary_failed (stub_instantiate true) "moss" [] = true
  /\ outcome (create (stub_instantiate true) "funasr" (fallback_kwargs_of "funasr" []))
     = Ok (mkASRClient FunASRClient
             [("model", VStr "paraformer-zh"); ("device", VStr "cpu")] true)
  /\ create_with_fallback (stub_instantiate true) "moss" "funasr" []
     = (Raise (RuntimeError "无法初始化 moss，且无回退选项"),
        [Construct "moss" [("api_key", VStr "")]])
  /\ create_with_fallback (stub_instantiate false) "nano-2512" "paraformer-zh"
       [("api_key", VStr "k")]
     = (Raise (RuntimeError "无法初始化 nano-2512，且无回退选项"),
        [Construct "nano-2512" [("model", VStr "nano-2512"); ("device", VStr "cpu")];
         PrintInitFailed "nano-2512"
           (ConstructionError "nano model could not be loaded");
         PrintFallback "paraformer-zh"])
  /\ outcome (create_with_fallback (stub_instantiate false) "nano-2512" "funasr" [])
     = Raise (ConstructionError "funasr model could not be loaded").
Proof.
  repeat split; vm_compute; reflexivity.
Qed.

(** C1, amended.  When the primary attempt fails (its construction raises,
    or the instance reports itself unavailable), [create_with_fallback]
    calls a constructor for the fallback only if the primary is "funasr",
    "nano-2512" or "nano-mlt" and the fallback is "funasr", or "moss" with a
    non-empty [api_key]; the operation then returns what that construction
    returns and fails with its error alone when it raises.  In every other
    case the operation fails with a RuntimeError and makes no constructor
    call after the primary's. *)
Theorem create_with_fallback_after_primary_failure
  instantiate primary_engine fallback_engine kw :
  primary_failed instantiate primary_engine kw = true ->
  let run := create_with_fallback instantiate primary_engine fallback_engine kw in
  let attempt := try_primary instantiate primary_engine kw in
  let fallback_call :=
    create instantiate fallback_engine (fallback_kwargs_of fallback_engine kw) in
  if fallback_reachable primary_engine fallback_engine kw
  then outcome run = outcome fallback_call
       /\ events run
          = (events attempt ++ [PrintFallback fallback_engine]
             ++ events fallback_call)%list
       /\ exists cls,
            dict_get _engines fallback_engine = Some cls
            /\ outcome run
               = instantiate cls (fallback_kwargs_of fallback_engine kw)
  else (exists msg, outcome run = Raise (RuntimeError msg))
       /\ exists notice,
            events run = (events attempt ++ notice)%list
            /\ forall engine, ~ constructs engine notice.
Proof.
  intros Hfailed. cbv zeta.
  pose proof (try_primary_failed instantiate primary_engine kw Hfailed) as Hattempt.
  unfold create_with_fallback, outcome, events in *.
  destruct (try_primary instantiate primary_engine kw) as [res w].
  cbn [fst snd] in *. subst res. unfold bind.
  unfold fallback_reachable, do_fallback.
  destruct (str_in primary_engine ["funasr"; "nano-2512"; "nano-mlt"]);
    cbn [andb].
  - destruct (String.eqb_spec fallback_engine "moss") as [->|Hmoss]; cbn [andb orb].
    + destruct (truthy (kw_get (fallback_kwargs_of "moss" kw) "api_key"));
        cbn [negb orb].
      * unfold create. cbn.
        destruct (instantiate MossClient (fallback_kwargs_of "moss" kw));
          cbn; repeat split; eexists; split; reflexivity.
      * cbn. split; [eexists; reflexivity|].
        exists [PrintFallback "moss"]. split; [reflexivity|].
        intros engine [args [Hin|[]]]. discriminate Hin.
    + destruct (String.eqb_spec fallback_engine "funasr") as [->|Hfunasr].
      * unfold create. cbn.
        destruct (instantiate FunASRClient (fallback_kwargs_of "funasr" kw));
          cbn; repeat split; eexists; split; reflexivity.
      * cbn. split; [eexists; reflexivity|].
        exists [PrintFallback fallback_engine]. split; [reflexivity|].
        intros engine [args [Hin|[]]]. discriminate Hin.
  - cbn. split; [eexists; reflexivity|].
    exists []. split; [reflexivity|].
    intros engine [args []].
Qed.

Lemma create_with_fallback_after_primary_failure_witness :
  primary_failed (stub_instantiate false) "nano-2512" [("api_key", VStr "k")] = true
  /\ outcome (create_with_fallback (stub_instantiate false) "nano-2512" "moss"
                [("api_key", VStr "k")])
     = Ok (mkASRClient MossClient [("api_key", VStr "k")] true).
Proof.
  split; [reflexivity|].
  pose proof (create_with_fallback_after_primary_failure
                (stub_instantiate false) "nano-2512" "moss"
                [("api_key", VStr "k")] eq_refl) as H.
  vm_compute in H. exact (proj1 H).
Defined.

(** * Further properties of the selector *)

(** ** Totals of one call are totally ordered *)

(** The scenario, weights and language-hint class of a call of [select],
    and for every engine a cover engine with the same registry entry and the
    same total. *)
Lemma candidate_cover ctx prio :
  exists hint,
    In hint cover_hints
    /\ String.eqb (language_hint ctx) "zh" = String.eqb hint "zh"
    /\ String.eqb (language_hint ctx) "en" = String.eqb hint "en"
    /\ forall e, exists r,
         In r cover_engines
         /\ capabilities_of e = capabilities_of r
         /\ candidate_total ctx prio e
            = cover_total (detect_scenario ctx) hint
                (select_weights (detect_scenario ctx) prio) r.
Proof.
  destruct (cover_hint_exists ctx) as [hint (Hhint & Hzh & Hen)].
  exists hint. repeat split; try assumption.
  intros e. destruct (cover_engine_exists e) as [r [Hr Hc]].
  exists r. repeat split; try assumption.
  unfold candidate_total. now apply score_total_covered.
Qed.

Lemma cover_transitive_holds : cover_transitive = true.
Proof. vm_compute. reflexivity. Qed.

Lemma candidate_totals_transitive ctx prio e1 e2 e3 :
  PrimFloat.leb (candidate_total ctx prio e1) (candidate_total ctx prio e2) = true ->
  PrimFloat.leb (candidate_total ctx prio e2) (candidate_total ctx prio e3) = true ->
  PrimFloat.leb (candidate_total ctx prio e1) (candidate_total ctx prio e3) = true.
Proof.
  destruct (candidate_cover ctx prio) as [hint (Hhint & _ & _ & Hcov)].
  destruct (Hcov e1) as [r1 (Hr1 & _ & ->)].
  destruct (Hcov e2) as [r2 (Hr2 & _ & ->)].
  destruct (Hcov e3) as [r3 (Hr3 & _ & ->)].
  set (sc := detect_scenario ctx). set (w := select_weights sc prio).
  pose proof cover_transitive_holds as Hok. unfold cover_transitive in Hok.
  rewrite forallb_forall in Hok.
  specialize (Hok sc (all_scenarios_complete sc)).
  rewrite forallb_forall in Hok. specialize (Hok hint Hhint).
  rewrite forallb_forall in Hok.
  specialize (Hok w (select_weights_cases sc prio)).
  rewrite forallb_forall in Hok. specialize (Hok r1 Hr1).
  rewrite forallb_forall in Hok. specialize (Hok r2 Hr2).
  rewrite forallb_forall in Hok. specialize (Hok r3 Hr3).
  unfold triple_ok in Hok. intros H12 H23. now rewrite H12, H23 in Hok.
Qed.

Lemma candidate_total_refl ctx prio e :
  PrimFloat.leb (candidate_total ctx prio e) (candidate_total ctx prio e) = true.
Proof.
  destruct (PrimFloat.ltb (candidate_total ctx prio e) (candidate_total ctx prio e))
    eqn:Hlt.
  - now apply ltb_leb.
  - now apply candidate_totals_comparable.
Qed.

(** A list sorted step by step under a relation that is transitive on its
    entries is sorted throughout. *)
Lemma sorted_strongly {A : Type} (R : A -> A -> Prop) (l : list A) :
  (forall x y z, In x l -> In y l -> In z l -> R x y -> R y z -> R x z) ->
  Sorted R l -> StronglySorted R l.
Proof.
  intros Htrans Hsorted.
  induction Hsorted as [|x rest Hrest IH Hhd]; [constructor|].
  assert (IH' : StronglySorted R rest).
  { apply IH. intros a b c Ha Hb Hc. apply Htrans; now right. }
  constructor; [exact IH'|].
  destruct Hhd as [|y rest' Hxy]; [constructor|].
  constructor; [exact Hxy|].
  apply StronglySorted_inv in IH'. destruct IH' as [_ Hy].
  rewrite Forall_forall in *. intros z Hz.
  apply (Htrans x y z); [now left | right; now left | right; now right | exact Hxy |].
  now apply Hy.
Qed.

(** Each entry of the sorted list is an available engine with the score
    [_score_engine] gives it. *)
Lemma select_scores_entry_score self ctx prio x :
  In x (select_scores self ctx prio) ->
  In (fst x) (_available_engines self)
  /\ snd x = _score_engine (fst x) (detect_scenario ctx) ctx
               (select_weights (detect_scenario ctx) prio).
Proof.
  unfold select_scores. intros Hin.
  eapply Permutation_in in Hin; [|apply Permutation_sym, sort_desc_perm].
  apply in_map_iff in Hin. destruct Hin as [e [<- He]].
  split; [exact He | reflexivity].
Qed.

Lemma select_scores_complete self ctx prio e :
  In e (_available_engines self) ->
  In (e, _score_engine e (detect_scenario ctx) ctx
           (select_weights (detect_scenario ctx) prio))
     (select_scores self ctx prio).
Proof.
  intros He. unfold select_scores.
  eapply Permutation_in; [apply sort_desc_perm|].
  apply in_map_iff. exists e. split; [reflexivity | exact He].
Qed.

Lemma select_scores_sorted self ctx prio :
  Sorted at_or_above (select_scores self ctx prio).
Proof.
  unfold select_scores. apply sort_desc_sorted.
  intros x y Hx Hy Hlt.
  apply in_map_iff in Hx. destruct Hx as [e1 [<- _]].
  apply in_map_iff in Hy. destruct Hy as [e2 [<- _]].
  apply (candidate_totals_comparable ctx prio e1 e2). exact Hlt.
Qed.

Lemma select_scores_strongly_sorted self ctx prio :
  StronglySorted at_or_above (select_scores self ctx prio).
Proof.
  apply sorted_strongly; [|apply select_scores_sorted].
  intros x y z Hx Hy Hz.
  apply select_scores_entries in Hx, Hy, Hz.
  destruct Hx as [_ Hx], Hy as [_ Hy], Hz as [_ Hz].
  unfold at_or_above. rewrite Hx, Hy, Hz. intros Hxy Hyz.
  eapply candidate_totals_transitive; eassumption.
Qed.

(** ** Antisymmetry of the comparison *)

Lemma finite_cmp_antisym (e1 e2 : Z) (m1 m2 : positive) :
  match (e2 ?= e1)%Z with
  | Eq => Pos.compare_cont Eq m2 m1
  | Lt => Lt
  | Gt => Gt
  end
  = CompOpp match (e1 ?= e2)%Z with
            | Eq => Pos.compare_cont Eq m1 m2
            | Lt => Lt
            | Gt => Gt
            end.
Proof.
  rewrite (Z.compare_antisym e1 e2).
  destruct (e1 ?= e2)%Z; cbn; try reflexivity.
  change (Pos.compare m2 m1 = CompOpp (Pos.compare m1 m2)).
  apply Pos.compare_antisym.
Qed.

Lemma SFcompare_antisym (a b : spec_float) :
  SFcompare b a = option_map CompOpp (SFcompare a b).
Proof.
  destruct a as [sa|sa| |sa ma ea], b as [sb|sb| |sb mb eb]; cbn;
    try reflexivity;
    try (destruct sa; reflexivity);
    try (destruct sb; reflexivity);
    try (destruct sa, sb; reflexivity).
  f_equal.
  destruct sa, sb; try reflexivity.
  - rewrite (Z.compare_antisym ea eb).
    destruct (ea ?= eb)%Z; cbn; try reflexivity.
    rewrite CompOpp_involutive.
    change (CompOpp (Pos.compare mb ma) = Pos.compare ma mb).
    symmetry. apply Pos.compare_antisym.
  - apply finite_cmp_antisym.
Qed.

Lemma ltb_asym (x y : float) : PrimFloat.ltb x y = true -> PrimFloat.ltb y x = false.
Proof.
  rewrite !FloatAxioms.ltb_spec. unfold SFltb.
  rewrite (SFcompare_antisym (Prim2SF x) (Prim2SF y)).
  destruct (SFcompare (Prim2SF x) (Prim2SF y)) as [[]|]; cbn; congruence.
Qed.

Lemma ltb_not_leb (x y : float) :
  PrimFloat.ltb x y = true -> PrimFloat.leb y x = false.
Proof.
  rewrite FloatAxioms.ltb_spec, FloatAxioms.leb_spec. unfold SFltb, SFleb.
  rewrite (SFcompare_antisym (Prim2SF x) (Prim2SF y)).
  destruct (SFcompare (Prim2SF x) (Prim2SF y)) as [[]|]; cbn; congruence.
Qed.

Lemma leb_not_ltb (x y : float) :
  PrimFloat.leb y x = true -> PrimFloat.ltb x y = false.
Proof.
  intros Hle. destruct (PrimFloat.ltb x y) eqn:Hlt; [|reflexivity].
  apply ltb_not_leb in Hlt. congruence.
Qed.

(** ** The recommended engine and the alternates *)

(** The head of the sorted list ranks at or above every available engine. *)
Lemma head_ranks_first self ctx prio best_engine best_score rest e :
  select_scores self ctx prio = (best_engine, best_score) :: rest ->
  In e (_available_engines self) ->
  PrimFloat.leb (candidate_total ctx prio e) (total_score best_score) = true.
Proof.
  intros Hscores He.
  pose proof (select_scores_strongly_sorted self ctx prio) as Hss.
  pose proof (select_scores_complete self ctx prio e He) as Hin.
  pose proof (select_scores_entries self ctx prio (best_engine, best_score)) as Hbest.
  rewrite Hscores in Hss, Hin, Hbest.
  destruct Hbest as [_ Hbest]; [now left|]. unfold total_of in Hbest. cbn in Hbest.
  destruct Hin as [Hin|Hin].
  - injection Hin as -> ->. apply candidate_total_refl.
  - apply StronglySorted_inv in Hss. destruct Hss as [_ Hall].
    rewrite Forall_forall in Hall. apply (Hall _ Hin).
Qed.

Lemma score_engine_name engine sc ctx w :
  engine_name (_score_engine engine sc ctx w) = engine.
Proof.
  unfold _score_engine.
  repeat match goal with
         | |- context [if ?b then _ else _] => destruct b
         end;
    reflexivity.
Qed.

(** X1. Whenever an engine is available, [select] recommends an available
    engine, returns that engine's own score under the detected scenario, and
    no available engine has a total above the recommended one's. *)
Theorem recommended_has_highest_total self ctx prio e :
  In e (_available_engines self) ->
  exists r, select self ctx prio = Ok r
    /\ In (recommended_engine r) (_available_engines self)
    /\ scenario r = detect_scenario ctx
    /\ score r = _score_engine (recommended_engine r) (detect_scenario ctx) ctx
                   (select_weights (detect_scenario ctx) prio)
    /\ engine_name (score r) = recommended_engine r
    /\ PrimFloat.leb (candidate_total ctx prio e) (total_score (score r)) = true.
Proof.
  intros He.
  destruct (select_returns self ctx prio) as [r [Hr Hshape]].
  exists r. split; [exact Hr|].
  destruct (select_scores self ctx prio) as [|[best_engine best_score] rest] eqn:Hs.
  - apply select_scores_nil in Hs. rewrite Hs in He. destruct He.
  - destruct Hshape as (Hbest & _ & Hsc & Hscore & _).
    destruct (select_scores_entry_score self ctx prio (best_engine, best_score))
      as [Havail Hentry]; [rewrite Hs; now left|].
    cbn [fst snd] in *. rewrite Hbest, Hscore, Hsc.
    repeat split; try assumption.
    + rewrite Hentry. apply score_engine_name.
    + eapply head_ranks_first; eassumption.
Qed.

Lemma recommended_has_highest_total_witness :
  exists r,
    select (EngineSelector_init (Some ["moss"; "sensevoice"])) default_context None
    = Ok r
    /\ recommended_engine r = "moss"
    /\ PrimFloat.leb (candidate_total default_context None "sensevoice")
         (total_score (score r)) = true.
Proof.
  destruct (recommended_has_highest_total
              (EngineSelector_init (Some ["moss"; "sensevoice"]))
              default_context None "sensevoice")
    as [r (Hr & _ & _ & _ & _ & Hmax)]; [cbn; tauto|].
  exists r. split; [exact Hr|]. split; [|exact Hmax].
  vm_compute in Hr. injection Hr as <-. reflexivity.
Defined.



Lemma NoDup_firstn_of {A : Type} (n : nat) (l : list A) :
  NoDup l -> NoDup (firstn n l).
Proof.
  intros Hnd. revert n.
  induction Hnd as [|x rest Hnotin Hrest IH]; intros [|n]; cbn; try constructor.
  - intros Hin. apply Hnotin. eapply in_firstn_in. exact Hin.
  - apply IH.
Qed.

(** X3. When the candidate list has no repetition, the recommended engine
    and the alternates are pairwise distinct: the recommended engine is never
    listed among its own alternates. *)
Theorem alternatives_distinct self ctx prio :
  NoDup (_available_engines self) ->
  exists r, select self ctx prio = Ok r
    /\ NoDup (recommended_engine r :: alternatives r).
Proof.
  intros Hnd.
  destruct (select_returns self ctx prio) as [r [Hr Hshape]].
  exists r. split; [exact Hr|].
  pose proof (select_scores_engines self ctx prio) as Hperm.
  destruct (select_scores self ctx prio) as [|[best_engine best_score] rest].
  - subst r. cbn. repeat constructor. intros [].
  - destruct Hshape as (-> & _ & _ & _ & _ & ->).
    change (NoDup (map fst (firstn 4 ((best_engine, best_score) :: rest)))).
    rewrite <- firstn_map. apply NoDup_firstn_of.
    eapply Permutation_NoDup; eassumption.
Qed.

Lemma alternatives_distinct_witness :
  exists r,
    select (EngineSelector_init None) default_context (Some "accuracy") = Ok r
    /\ NoDup (recommended_engine r :: alternatives r).
Proof.
  apply (alternatives_distinct (EngineSelector_init None)).
  cbn. repeat constructor; cbn; intuition discriminate.
Defined.

(** ** Scenario penalties decide the recommendation *)

(** If every engine that passes [good] totals strictly more than every
    engine that does not, and some available engine passes, then the
    recommended engine passes. *)
Lemma preferred_is_recommended (good : option EngineCapability -> bool)
  self ctx prio g :
  (forall e1 e2,
      good (capabilities_of e1) = true -> good (capabilities_of e2) = false ->
      PrimFloat.ltb (candidate_total ctx prio e2) (candidate_total ctx prio e1)
      = true) ->
  In g (_available_engines self) ->
  good (capabilities_of g) = true ->
  exists r, select self ctx prio = Ok r
    /\ scenario r = detect_scenario ctx
    /\ good (capabilities_of (recommended_engine r)) = true.
Proof.
  intros Hsep Hg Hgood.
  destruct (select_returns self ctx prio) as [r [Hr Hshape]].
  exists r. split; [exact Hr|].
  destruct (select_scores self ctx prio) as [|[best_engine best_score] rest] eqn:Hs.
  - apply select_scores_nil in Hs. rewrite Hs in Hg. destruct Hg.
  - destruct Hshape as (-> & _ & -> & _).
    split; [reflexivity|].
    destruct (good (capabilities_of best_engine)) eqn:Hbest; [reflexivity|].
    pose proof (Hsep g best_engine Hgood Hbest) as Hlt.
    pose proof (head_ranks_first self ctx prio _ _ _ g Hs Hg) as Hle.
    destruct (select_scores_entries self ctx prio (best_engine, best_score))
      as [_ Htot]; [rewrite Hs; now left|].
    unfold total_of in Htot. cbn in Htot. rewrite Htot in Hle.
    apply ltb_not_leb in Hlt. congruence.
Qed.

(** What a true [cover_separates] says of the candidates of a call. *)
Lemma cover_separates_candidates good ws hints ctx prio :
  cover_separates (detect_scenario ctx) ws hints good = true ->
  In (select_weights (detect_scenario ctx) prio) ws ->
  (forall hint,
      In hint cover_hints ->
      String.eqb (language_hint ctx) "zh" = String.eqb hint "zh" ->
      String.eqb (language_hint ctx) "en" = String.eqb hint "en" ->
      In hint hints) ->
  forall e1 e2,
    good (capabilities_of e1) = true -> good (capabilities_of e2) = false ->
    PrimFloat.ltb (candidate_total ctx prio e2) (candidate_total ctx prio e1)
    = true.
Proof.
  intros Hok Hw Hhints e1 e2 H1 H2.
  destruct (candidate_cover ctx prio) as [hint (Hhint & Hzh & Hen & Hcov)].
  destruct (Hcov e1) as [r1 (Hr1 & Hc1 & ->)].
  destruct (Hcov e2) as [r2 (Hr2 & Hc2 & ->)].
  unfold cover_separates in Hok.
  rewrite forallb_forall in Hok.
  specialize (Hok hint (Hhints hint Hhint Hzh Hen)).
  rewrite forallb_forall in Hok. specialize (Hok _ Hw).
  rewrite forallb_forall in Hok. specialize (Hok r1 Hr1).
  rewrite forallb_forall in Hok. specialize (Hok r2 Hr2).
  rewrite <- Hc1, <- Hc2, H1, H2 in Hok. exact Hok.
Qed.

Lemma only_nano_streams (engine : string) :
  supports_streaming (capabilities_of engine) = true -> engine = "nano-2512".
Proof.
  unfold supports_streaming, capabilities_of, ENGINE_CAPABILITIES, dict_get.
  destruct (String.eqb_spec "nano-2512" engine) as [<-|_]; [reflexivity|].
  destruct (String.eqb "paraformer-zh" engine); [discriminate|].
  destruct (String.eqb "sensevoice" engine); [discriminate|].
  destruct (String.eqb "moss" engine); discriminate.
Qed.

(** X4. For a streaming context, whatever the priority, if a
    streaming-capable engine is among the candidates then the scenario is
    REALTIME and the recommended engine is streaming-capable; it is
    "nano-2512", the one engine of the registry that is. *)
Theorem realtime_recommends_streaming_engine self ctx prio g :
  is_streaming ctx = true ->
  In g (_available_engines self) ->
  supports_streaming (capabilities_of g) = true ->
  exists r, select self ctx prio = Ok r
    /\ scenario r = REALTIME
    /\ supports_streaming (capabilities_of (recommended_engine r)) = true
    /\ recommended_engine r = "nano-2512".
Proof.
  intros Hstream Hg Hgood.
  assert (Hsc : detect_scenario ctx = REALTIME).
  { unfold detect_scenario. now rewrite Hstream. }
  destruct (preferred_is_recommended supports_streaming self ctx prio g)
    as [r (Hr & Hscen & Hrec)]; try assumption.
  - apply (cover_separates_candidates supports_streaming
             (cover_weights REALTIME) cover_hints).
    + rewrite Hsc. vm_compute. reflexivity.
    + rewrite Hsc. apply select_weights_cases.
    + intros hint Hhint _ _. exact Hhint.
  - exists r. rewrite Hscen, Hsc. repeat split; try assumption.
    now apply only_nano_streams.
Qed.

Lemma realtime_recommends_streaming_engine_witness :
  exists r,
    select (EngineSelector_init (Some ["sensevoice"; "moss"; "nano-2512"]))
      (mkAudioContext None 30 1 "zh" true "accuracy") (Some "accuracy") = Ok r
    /\ scenario r = REALTIME
    /\ supports_streaming (capabilities_of (recommended_engine r)) = true
    /\ recommended_engine r = "nano-2512".
Proof.
  apply (realtime_recommends_streaming_engine
           (EngineSelector_init (Some ["sensevoice"; "moss"; "nano-2512"]))
           (mkAudioContext None 30 1 "zh" true "accuracy") (Some "accuracy")
           "nano-2512").
  - reflexivity.
  - cbn. tauto.
  - reflexivity.
Defined.

(** Outside streaming, a context that is not classified MULTILINGUAL has a
    language hint other than "en". *)
Lemma hint_not_en_outside_multilingual ctx :
  is_streaming ctx = false ->
  detect_scenario ctx <> MULTILINGUAL ->
  String.eqb (language_hint ctx) "en" = false.
Proof.
  intros Hstream Hsc. unfold detect_scenario in Hsc. rewrite Hstream in Hsc.
  rewrite str_in_en_multi in Hsc.
  destruct (String.eqb (language_hint ctx) "en"); [|reflexivity].
  cbn in Hsc. now contradiction Hsc.
Qed.

Lemma meeting_not_streaming ctx :
  detect_scenario ctx = MEETING -> is_streaming ctx = false.
Proof.
  unfold detect_scenario. destruct (is_streaming ctx); [discriminate | reflexivity].
Qed.

(** X5. For a context classified MEETING and no priority override, if an
    engine with speaker diarization is among the candidates then the
    recommended engine has speaker diarization. *)
Theorem meeting_recommends_diarization_engine self ctx g :
  detect_scenario ctx = MEETING ->
  In g (_available_engines self) ->
  supports_diarization (capabilities_of g) = true ->
  exists r, select self ctx None = Ok r
    /\ scenario r = MEETING
    /\ supports_diarization (capabilities_of (recommended_engine r)) = true.
Proof.
  intros Hsc Hg Hgood.
  destruct (preferred_is_recommended supports_diarization self ctx None g)
    as [r (Hr & Hscen & Hrec)]; try assumption.
  - apply (cover_separates_candidates supports_diarization
             [SCENARIO_WEIGHTS MEETING] ["zh"; "auto"]).
    + rewrite Hsc. vm_compute. reflexivity.
    + rewrite Hsc. now left.
    + intros hint Hhint _ Hen.
      rewrite (hint_not_en_outside_multilingual ctx) in Hen.
      * cbn in Hhint. destruct Hhint as [<-|[<-|[<-|[]]]]; cbn; try tauto.
        discriminate Hen.
      * now apply meeting_not_streaming.
      * rewrite Hsc. discriminate.
  - exists r. rewrite Hscen, Hsc. repeat split; assumption.
Qed.

Lemma meeting_recommends_diarization_engine_witness :
  exists r,
    select (EngineSelector_init None)
      (mkAudioContext None 3600 3 "auto" false "balanced") None = Ok r
    /\ scenario r = MEETING
    /\ supports_diarization (capabilities_of (recommended_engine r)) = true.
Proof.
  apply (meeting_recommends_diarization_engine (EngineSelector_init None)
           (mkAudioContext None 3600 3 "auto" false "balanced") "paraformer-zh").
  - reflexivity.
  - cbn. tauto.
  - reflexivity.
Defined.

Lemma multilingual_hint ctx :
  detect_scenario ctx = MULTILINGUAL ->
  String.eqb (language_hint ctx) "zh" = false.
Proof.
  unfold detect_scenario. destruct (is_streaming ctx); [discriminate|].
  rewrite str_in_en_multi.
  destruct (String.eqb_spec (language_hint ctx) "en") as [->|_]; [reflexivity|].
  destruct (String.eqb_spec (language_hint ctx) "multi") as [->|_]; [reflexivity|].
  cbn [orb].
  repeat match goal with
         | |- context [if ?b then _ else _] => destruct b
         end; discriminate.
Qed.

(** X6. For a context classified MULTILINGUAL, whatever the priority, if an
    engine with at least five languages is among the candidates then the
    recommended engine has at least five languages. *)
Theorem multilingual_recommends_polyglot_engine self ctx prio g :
  detect_scenario ctx = MULTILINGUAL ->
  In g (_available_engines self) ->
  is_multilingual (capabilities_of g) = true ->
  exists r, select self ctx prio = Ok r
    /\ scenario r = MULTILINGUAL
    /\ is_multilingual (capabilities_of (recommended_engine r)) = true.
Proof.
  intros Hsc Hg Hgood.
  destruct (preferred_is_recommended is_multilingual self ctx prio g)
    as [r (Hr & Hscen & Hrec)]; try assumption.
  - apply (cover_separates_candidates is_multilingual
             (cover_weights MULTILINGUAL) ["en"; "auto"]).
    + rewrite Hsc. vm_compute. reflexivity.
    + rewrite Hsc. apply select_weights_cases.
    + intros hint Hhint Hzh _.
      rewrite (multilingual_hint ctx Hsc) in Hzh.
      cbn in Hhint. destruct Hhint as [<-|[<-|[<-|[]]]]; cbn; try tauto.
      discriminate Hzh.
  - exists r. rewrite Hscen, Hsc. repeat split; assumption.
Qed.

Lemma multilingual_recommends_polyglot_engine_witness :
  exists r,
    select (EngineSelector_init (Some ["moss"; "paraformer-zh"; "sensevoice"]))
      (mkAudioContext None 60 1 "multi" false "balanced") (Some "latency") = Ok r
    /\ scenario r = MULTILINGUAL
    /\ is_multilingual (capabilities_of (recommended_engine r)) = true.
Proof.
  apply (multilingual_recommends_polyglot_engine
           (EngineSelector_init (Some ["moss"; "paraformer-zh"; "sensevoice"]))
           (mkAudioContext None 60 1 "multi" false "balanced") (Some "latency")
           "sensevoice").
  - reflexivity.
  - cbn. tauto.
  - reflexivity.
Defined.

(** ** The clamp and the priority argument *)

Lemma cover_unclamped_holds : cover_unclamped = true.
Proof. vm_compute. reflexivity. Qed.

Lemma candidate_margin_unclamped ctx prio e1 e2 :
  PrimFloat.ltb (candidate_total ctx prio e1) (candidate_total ctx prio e2) = false ->
  let margin :=
    ((candidate_total ctx prio e1 - candidate_total ctx prio e2) / 100)%float in
  py_max 0 (py_min 1 margin) = margin.
Proof.
  destruct (candidate_cover ctx prio) as [hint (Hhint & _ & _ & Hcov)].
  destruct (Hcov e1) as [r1 (Hr1 & _ & ->)].
  destruct (Hcov e2) as [r2 (Hr2 & _ & ->)].
  set (sc := detect_scenario ctx). set (w := select_weights sc prio).
  pose proof cover_unclamped_holds as Hok. unfold cover_unclamped in Hok.
  rewrite forallb_forall in Hok.
  specialize (Hok sc (all_scenarios_complete sc)).
  rewrite forallb_forall in Hok. specialize (Hok hint Hhint).
  rewrite forallb_forall in Hok.
  specialize (Hok w (select_weights_cases sc prio)).
  rewrite forallb_forall in Hok. specialize (Hok r1 Hr1).
  rewrite forallb_forall in Hok. specialize (Hok r2 Hr2).
  unfold margin_unclamped in Hok. intros Hlt. rewrite Hlt in Hok. cbn in Hok.
  now apply FloatAxioms.Leibniz.eqb_spec in Hok.
Qed.

(** X7. The clamp of [select] is never active: with two or more candidates
    the confidence is exactly the difference of the two best totals divided
    by 100, which is never negative and never above 1. *)
Theorem confidence_is_the_margin self ctx prio :
  exists r, select self ctx prio = Ok r
    /\ match select_scores self ctx prio with
       | top :: second :: _ =>
           confidence r = ((total_of top - total_of second) / 100)%float
           /\ PrimFloat.leb (total_of second) (total_of top) = true
       | [_] => confidence r = 1%float
       | [] => confidence r = 0%float
       end.
Proof.
  destruct (select_returns self ctx prio) as [r [Hr Hshape]].
  exists r. split; [exact Hr|].
  pose proof (select_scores_entries self ctx prio) as Hentries.
  pose proof (select_scores_sorted self ctx prio) as Hsorted.
  destruct (select_scores self ctx prio) as [|[e1 s1] [|[e2 s2] rest]].
  - now subst r.
  - now destruct Hshape as (_ & _ & _ & _ & -> & _).
  - destruct Hshape as (_ & _ & _ & _ & -> & _).
    cbn [select_confidence].
    apply Sorted_inv in Hsorted. destruct Hsorted as [_ Hhd].
    apply HdRel_inv in Hhd. unfold at_or_above in Hhd.
    split; [|exact Hhd].
    destruct (Hentries (e1, s1)) as [_ H1]; [now left|].
    destruct (Hentries (e2, s2)) as [_ H2]; [right; now left|].
    unfold total_of in *. cbn [snd fst] in *. rewrite H1, H2 in *.
    apply candidate_margin_unclamped. now apply leb_not_ltb.
Qed.

Lemma select_by_weights self ctx prio prio' :
  select_weights (detect_scenario ctx) prio
  = select_weights (detect_scenario ctx) prio' ->
  select self ctx prio = select self ctx prio'.
Proof.
  intros Hw. unfold select, select_scores. now rewrite Hw.
Qed.

(** X8. The priority argument of [select] is read leniently: the empty
    string and "auto" behave as no priority at all, and any other string
    that is neither "latency" nor "accuracy" behaves as "balanced". *)
Theorem priority_read_leniently self ctx p :
  p <> "latency" -> p <> "accuracy" ->
  select self ctx (Some p)
  = select self ctx
      (if String.eqb p "" || String.eqb p "auto" then None else Some "balanced").
Proof.
  intros Hlat Hacc. apply select_by_weights.
  unfold select_weights, opt_truthy, _get_priority_weights.
  destruct (String.eqb_spec p "") as [->|Hempty]; [reflexivity|].
  destruct (String.eqb_spec p "auto") as [->|Hauto]; [reflexivity|].
  destruct (String.eqb_spec p "latency") as [->|_]; [contradiction|].
  destruct (String.eqb_spec p "accuracy") as [->|_]; [contradiction|].
  reflexivity.
Qed.

Lemma priority_read_leniently_witness :
  select (EngineSelector_init None) default_context (Some "fastest")
  = select (EngineSelector_init None) default_context (Some "balanced").
Proof.
  apply (priority_read_leniently (EngineSelector_init None) default_context
           "fastest"); discriminate.
Defined.

(** * Further properties of the factory *)

Lemma construct_calls_app (a b : list event) :
  construct_calls (a ++ b) = (construct_calls a ++ construct_calls b)%list.
Proof.
  induction a as [|ev a IH]; [reflexivity|].
  destruct ev; cbn; now rewrite IH.
Qed.

(** The engines the factory registers, one by one. *)
Lemma engines_cases (engine : string) (cls : EngineClass) :
  dict_get _engines engine = Some cls ->
  (engine = "moss" /\ cls = MossClient)
  \/ (engine = "funasr" /\ cls = FunASRClient)
  \/ (engine = "nano-2512" /\ cls = FunASRNanoClient)
  \/ (engine = "nano-mlt" /\ cls = FunASRNanoClient).
Proof.
  unfold _engines, dict_get.
  destruct (String.eqb_spec "moss" engine) as [<-|_];
    [intros [= <-]; tauto|].
  destruct (String.eqb_spec "funasr" engine) as [<-|_];
    [intros [= <-]; tauto|].
  destruct (String.eqb_spec "nano-2512" engine) as [<-|_];
    [intros [= <-]; tauto|].
  destruct (String.eqb_spec "nano-mlt" engine) as [<-|_];
    [intros [= <-]; tauto|].
  discriminate.
Qed.

(** The events of the primary attempt: one constructor call when the engine
    is registered, none otherwise. *)
Lemma try_primary_calls instantiate primary_engine kw :
  construct_calls (events (try_primary instantiate primary_engine kw))
  = match dict_get _engines primary_engine with
    | Some _ => [(primary_engine, primary_kwargs_of primary_engine kw)]
    | None => []
    end.
Proof.
  unfold try_primary, create, events.
  destruct (dict_get _engines primary_engine) as [cls|]; [|reflexivity].
  cbn. destruct (instantiate cls (primary_kwargs_of primary_engine kw))
    as [client|e]; cbn; [|reflexivity].
  destruct (is_available client); reflexivity.
Qed.

(** The constructor calls of the fallback part: at most one, for "moss" or
    "funasr", with the translated arguments. *)
Lemma do_fallback_calls instantiate primary_engine fallback_engine kw :
  let calls :=
    construct_calls
      (events (do_fallback instantiate primary_engine fallback_engine
                 (fallback_kwargs_of fallback_engine kw))) in
  calls = []
  \/ (fallback_engine = "moss"
      /\ calls = [("moss", [("api_key", kw_get_default kw "api_key" (VStr ""))])])
  \/ (fallback_engine = "funasr"
      /\ calls = [("funasr", fallback_kwargs_of "funasr" kw)]).
Proof.
  cbv zeta. unfold do_fallback, events.
  destruct (str_in primary_engine ["funasr"; "nano-2512"; "nano-mlt"]);
    [|now left].
  destruct (String.eqb_spec fallback_engine "moss") as [->|Hmoss].
  - destruct (negb (truthy (kw_get (fallback_kwargs_of "moss" kw) "api_key")));
      [now left|].
    right; left. split; [reflexivity|].
    unfold create. cbn. reflexivity.
  - destruct (String.eqb_spec fallback_engine "funasr") as [->|Hfunasr];
      [|now left].
    right; right. split; [reflexivity|].
    unfold create. cbn. reflexivity.
Qed.

Lemma create_with_fallback_calls instantiate primary_engine fallback_engine kw :
  exists later,
    construct_calls
      (events (create_with_fallback instantiate primary_engine fallback_engine kw))
    = (construct_calls (events (try_primary instantiate primary_engine kw))
       ++ later)%list
    /\ (later = []
        \/ later
           = construct_calls
               (events (do_fallback instantiate primary_engine fallback_engine
                          (fallback_kwargs_of fallback_engine kw)))).
Proof.
  unfold create_with_fallback, events, bind.
  destruct (try_primary instantiate primary_engine kw) as [[[client|]|e] w];
    cbn [snd].
  - exists []. cbn. rewrite !app_nil_r. split; [reflexivity | now left].
  - destruct (do_fallback instantiate primary_engine fallback_engine
                (fallback_kwargs_of fallback_engine kw)) as [res w'] eqn:Hfb.
    exists (construct_calls w'). cbn. rewrite construct_calls_app.
    split; [reflexivity | now right].
  - exists []. rewrite app_nil_r. split; [reflexivity | now left].
Qed.

(** X9. Every constructor call [create_with_fallback] makes is for a
    registered engine and carries only keyword arguments the constructor of
    that engine's class accepts: keys of the caller's [kwargs] that the
    engine does not know are dropped, and a Moss client always gets its
    [api_key]. *)
Theorem constructor_calls_are_translated
  instantiate primary_engine fallback_engine kw engine args :
  In (engine, args)
     (construct_calls
        (events (create_with_fallback instantiate primary_engine
                   fallback_engine kw))) ->
  exists cls,
    dict_get _engines engine = Some cls
    /\ incl (dict_keys args) (accepted_params cls)
    /\ NoDup (dict_keys args)
    /\ (cls = MossClient -> dict_keys args = ["api_key"]).
Proof.
  intros Hin.
  destruct (create_with_fallback_calls instantiate primary_engine
              fallback_engine kw) as [later [Hcalls Hlater]].
  rewrite Hcalls, try_primary_calls in Hin.
  apply in_app_or in Hin. destruct Hin as [Hin|Hin].
  - destruct (dict_get _engines primary_engine) as [cls|] eqn:Hcls;
      [|destruct Hin].
    destruct Hin as [ [= <- <-] | [] ]. exists cls. split; [exact Hcls|].
    apply engines_cases in Hcls.
    destruct Hcls as [[-> ->]|[[-> ->]|[[-> ->]|[-> ->]]]]; cbn;
      (split; [intros k Hk; cbn in Hk; cbn; tauto|]);
      (split; [repeat constructor; cbn; intuition discriminate|]);
      intros; try discriminate; reflexivity.
  - destruct Hlater as [-> | ->]; [destruct Hin|].
    destruct (do_fallback_calls instantiate primary_engine fallback_engine kw)
      as [Hnone|[[-> Hmoss]|[-> Hfunasr]]].
    + cbv zeta in Hnone. rewrite Hnone in Hin. destruct Hin.
    + rewrite Hmoss in Hin. destruct Hin as [ [= <- <-] | [] ].
      exists MossClient. split; [reflexivity|]. cbn.
      split; [intros k Hk; cbn in Hk; cbn; tauto|].
      split; [repeat constructor; cbn; intuition discriminate | reflexivity].
    + rewrite Hfunasr in Hin. destruct Hin as [ [= <- <-] | [] ].
      exists FunASRClient. split; [reflexivity|]. cbn.
      split; [intros k Hk; cbn in Hk; cbn; tauto|].
      split; [repeat constructor; cbn; intuition discriminate | discriminate].
Qed.

Lemma constructor_calls_are_translated_witness :
  exists cls,
    dict_get _engines "nano-mlt" = Some cls
    /\ incl (dict_keys [("model", VStr "nano-mlt"); ("device", VStr "cuda")])
            (accepted_params cls)
    /\ NoDup (dict_keys [("model", VStr "nano-mlt"); ("device", VStr "cuda")])
    /\ (cls = MossClient ->
        dict_keys [("model", VStr "nano-mlt"); ("device", VStr "cuda")]
        = ["api_key"]).
Proof.
  apply (constructor_calls_are_translated (stub_instantiate true)
           "nano-mlt" "moss"
           [("hotkey", VStr "f2"); ("nano_device", VStr "cuda");
            ("api_key", VStr "k")]).
  cbn. now left.
Defined.

(** Case analysis of a run of [create_with_fallback]: on the registry entry
    of the primary, on what its constructor returns, and on the guards of the
    fallback part. *)
Ltac run_cases instantiate primary_engine fallback_engine kw :=
  unfold primary_failed, fallback_reachable;
  unfold create_with_fallback, try_primary, do_fallback, create, outcome, events;
  destruct (dict_get _engines primary_engine) as [cls|] eqn:Hcls;
  cbn -[str_in fallback_kwargs_of primary_kwargs_of kw_get truthy];
  [ destruct (instantiate cls (primary_kwargs_of primary_engine kw))
      as [client0|e0] eqn:Hprimary;
    cbn -[str_in fallback_kwargs_of primary_kwargs_of kw_get truthy];
    [ destruct (is_available client0) eqn:Havail;
      cbn -[str_in fallback_kwargs_of primary_kwargs_of kw_get truthy] | ]
  | ];
  try (destruct (str_in primary_engine ["funasr"; "nano-2512"; "nano-mlt"])
         eqn:Hlocal;
       cbn -[str_in fallback_kwargs_of primary_kwargs_of kw_get truthy];
       [ destruct (String.eqb_spec fallback_engine "moss") as [->|Hmoss];
         cbn -[str_in fallback_kwargs_of primary_kwargs_of kw_get truthy];
         [ destruct (truthy (kw_get (fallback_kwargs_of "moss" kw) "api_key"))
             eqn:Hkey;
           cbn -[str_in fallback_kwargs_of primary_kwargs_of kw_get truthy];
           [ destruct (instantiate MossClient (fallback_kwargs_of "moss" kw))
               as [client1|e1] eqn:Hfallback;
             cbn -[str_in fallback_kwargs_of primary_kwargs_of kw_get truthy]
           | ]
         | destruct (String.eqb_spec fallback_engine "funasr") as [->|Hfunasr];
           cbn -[str_in fallback_kwargs_of primary_kwargs_of kw_get truthy];
           [ destruct (instantiate FunASRClient (fallback_kwargs_of "funasr" kw))
               as [client1|e1] eqn:Hfallback;
             cbn -[str_in fallback_kwargs_of primary_kwargs_of kw_get truthy]
           | ] ]
       | ]).

(** The three engines that may fall back are registered. *)
Lemma local_engine_registered (engine : string) :
  str_in engine ["funasr"; "nano-2512"; "nano-mlt"] = true ->
  dict_get _engines engine <> None.
Proof.
  unfold str_in. cbn [existsb].
  destruct (String.eqb_spec engine "funasr") as [->|_]; [discriminate|].
  destruct (String.eqb_spec engine "nano-2512") as [->|_]; [discriminate|].
  destruct (String.eqb_spec engine "nano-mlt") as [->|_]; discriminate.
Qed.

(** X10. A run of [create_with_fallback] makes at most two constructor
    calls: none when the primary is not registered, the primary's, and after
    it at most one for the fallback, made only when the primary attempt has
    failed and the guards of the fallback part hold.  There is no second
    hop. *)
Theorem at_most_one_fallback_hop
  instantiate primary_engine fallback_engine kw :
  let calls :=
    construct_calls
      (events (create_with_fallback instantiate primary_engine
                 fallback_engine kw)) in
  let primary_call := (primary_engine, primary_kwargs_of primary_engine kw) in
  (calls = [] /\ dict_get _engines primary_engine = None)
  \/ calls = [primary_call]
  \/ (calls = [primary_call;
               (fallback_engine, fallback_kwargs_of fallback_engine kw)]
      /\ primary_failed instantiate primary_engine kw = true
      /\ fallback_reachable primary_engine fallback_engine kw = true).
Proof.
  cbv zeta.
  run_cases instantiate primary_engine fallback_engine kw;
    try rewrite Hprimary; try rewrite Havail; try rewrite Hkey;
    cbn -[str_in fallback_kwargs_of primary_kwargs_of kw_get truthy];
    try (left; split; reflexivity);
    try (right; left; reflexivity);
    try (right; right; repeat split; reflexivity).
  all: exfalso; exact (local_engine_registered _ Hlocal Hcls).
Qed.

(** X11. When [create_with_fallback] returns a client, that client is what
    the last constructor call of the run returned: either the primary's,
    and then the client reports itself available, or the fallback's after a
    failed primary attempt, and then it is returned as it is, its
    availability unchecked. *)
Theorem returned_client_is_last_constructed
  instantiate primary_engine fallback_engine kw client :
  outcome (create_with_fallback instantiate primary_engine fallback_engine kw)
  = Ok client ->
  exists before engine cls args,
    construct_calls
      (events (create_with_fallback instantiate primary_engine
                 fallback_engine kw))
    = (before ++ [(engine, args)])%list
    /\ dict_get _engines engine = Some cls
    /\ instantiate cls args = Ok client
    /\ ((before = [] /\ engine = primary_engine
         /\ args = primary_kwargs_of primary_engine kw
         /\ is_available client = true)
        \/ (before = [(primary_engine, primary_kwargs_of primary_engine kw)]
            /\ engine = fallback_engine
            /\ args = fallback_kwargs_of fallback_engine kw
            /\ primary_failed instantiate primary_engine kw = true)).
Proof.
  run_cases instantiate primary_engine fallback_engine kw;
    try rewrite Hprimary; try rewrite Havail;
    cbn -[str_in fallback_kwargs_of primary_kwargs_of kw_get truthy];
    intros Hout; try discriminate Hout; injection Hout as <-.
  all: first
    [ exfalso; exact (local_engine_registered _ Hlocal Hcls)
    | solve
        [ exists [], primary_engine, cls, (primary_kwargs_of primary_engine kw);
          split; [reflexivity|]; split; [exact Hcls|]; split; [exact Hprimary|];
          left; repeat split; exact Havail ]
    | solve
        [ exists [(primary_engine, primary_kwargs_of primary_engine kw)],
            "moss", MossClient, (fallback_kwargs_of "moss" kw);
          split; [reflexivity|]; split; [reflexivity|];
          split; [exact Hfallback|]; right; repeat split ]
    | solve
        [ exists [(primary_engine, primary_kwargs_of primary_engine kw)],
            "funasr", FunASRClient, (fallback_kwargs_of "funasr" kw);
          split; [reflexivity|]; split; [reflexivity|];
          split; [exact Hfallback|]; right; repeat split ] ].
Qed.

Lemma returned_client_is_last_constructed_witness :
  exists before engine cls args,
    construct_calls
      (events (create_with_fallback (stub_instantiate false) "funasr" "moss"
                 [("api_key", VStr "k")]))
    = (before ++ [(engine, args)])%list
    /\ dict_get _engines engine = Some cls
    /\ stub_instantiate false cls args
       = Ok (mkASRClient MossClient [("api_key", VStr "k")] true)
    /\ ((before = [] /\ engine = "funasr"
         /\ args = primary_kwargs_of "funasr" [("api_key", VStr "k")]
         /\ true = true)
        \/ (before = [("funasr", primary_kwargs_of "funasr" [("api_key", VStr "k")])]
            /\ engine = "moss"
            /\ args = fallback_kwargs_of "moss" [("api_key", VStr "k")]
            /\ primary_failed (stub_instantiate false) "funasr"
                 [("api_key", VStr "k")] = true)).
Proof.
  apply (returned_client_is_last_constructed (stub_instantiate false)
           "funasr" "moss" [("api_key", VStr "k")]
           (mkASRClient MossClient [("api_key", VStr "k")] true)).
  reflexivity.
Defined.

(** ** The facade never falls back *)



(** * Properties of the callers *)

(** The scorer reads the context only through the two tests on the language
    hint. *)
Lemma score_depends_on_hint engine sc ctx ctx' w :
  String.eqb (language_hint ctx) "zh" = String.eqb (language_hint ctx') "zh" ->
  String.eqb (language_hint ctx) "en" = String.eqb (language_hint ctx') "en" ->
  _score_engine engine sc ctx w = _score_engine engine sc ctx' w.
Proof.
  intros Hzh Hen. unfold _score_engine. now rewrite Hzh, Hen.
Qed.

Lemma select_depends_on_hint self ctx ctx' prio :
  detect_scenario ctx = detect_scenario ctx' ->
  String.eqb (language_hint ctx) "zh" = String.eqb (language_hint ctx') "zh" ->
  String.eqb (language_hint ctx) "en" = String.eqb (language_hint ctx') "en" ->
  select self ctx prio = select self ctx' prio.
Proof.
  intros Hsc Hzh Hen. unfold select, select_scores. rewrite Hsc.
  rewrite (map_ext _ (fun engine =>
             (engine, _score_engine engine (detect_scenario ctx') ctx'
                        (select_weights (detect_scenario ctx') prio)))).
  - reflexivity.
  - intros e. now rewrite (score_depends_on_hint e _ ctx ctx').
Qed.

Lemma scenario_name_is_no_language (s : string) :
  dict_mem scenario_map s = true ->
  String.eqb s "zh" = false /\ String.eqb s "en" = false.
Proof.
  unfold dict_mem, scenario_map, dict_get.
  repeat match goal with
         | |- context [String.eqb ?k s] =>
             destruct (String.eqb_spec k s) as [<-|_]; [split; reflexivity|]
         end.
  discriminate.
Qed.

Lemma smart_context_selection scenario prio :
  create_smart_selection (smart_context scenario prio)
  = create_smart_selection (smart_context None "balanced").
Proof.
  unfold create_smart_selection. apply select_depends_on_hint.
  - unfold smart_context.
    destruct scenario as [s|]; [|reflexivity].
    destruct (opt_truthy (Some s) && dict_mem scenario_map s); reflexivity.
  - unfold smart_context.
    destruct scenario as [s|]; [|reflexivity].
    destruct (opt_truthy (Some s)); [|reflexivity]. cbn [andb].
    destruct (dict_mem scenario_map s) eqn:Hmem; [|reflexivity].
    apply scenario_name_is_no_language in Hmem. cbn. now rewrite (proj1 Hmem).
  - unfold smart_context.
    destruct scenario as [s|]; [|reflexivity].
    destruct (opt_truthy (Some s)); [|reflexivity]. cbn [andb].
    destruct (dict_mem scenario_map s) eqn:Hmem; [|reflexivity].
    apply scenario_name_is_no_language in Hmem. cbn. now rewrite (proj2 Hmem).
Qed.

(** X13. In smart mode the constructor of [VoiceIME] is deaf to its
    [asr_engine], [scenario] and [priority] arguments: whatever they are, the
    run is the same as without them.  The selection is always the streaming
    one: scenario REALTIME, engine "nano-2512", fallback "paraformer-zh". *)
Theorem smart_mode_ignores_scenario_and_priority
  instantiate asr_engine explain scenario prio kw :
  VoiceIME_init_client instantiate asr_engine true explain scenario prio kw
  = VoiceIME_init_client instantiate "funasr" true explain None "balanced" kw
  /\ create_smart_selection (smart_context scenario prio)
     = Ok {| recommended_engine := "nano-2512";
             fallback_engine := "paraformer-zh";
             scenario := REALTIME;
             score := mkEngineScore "nano-2512" 85.5 95 80 70 0
                        ["原生流式支持，低延迟"];
             confidence := 0.376;
             alternatives := ["moss"] |}.
Proof.
  pose proof (smart_context_selection scenario prio) as Hsel.
  split.
  - unfold VoiceIME_init_client, create_smart. now rewrite Hsel.
  - rewrite Hsel. vm_compute. reflexivity.
Qed.

(** X14. The transcribe endpoint always asks the factory for a registered
    engine, so [create] never raises its ValueError there; it makes one
    constructor call, without keyword arguments.  The models "paraformer-zh"
    and "sensevoice" are not names of the factory: both requests construct
    the "funasr" engine with its defaults, and the requested model name is
    not passed on. *)
Theorem transcribe_engine_is_registered instantiate (model : ASRModel) :
  exists cls,
    dict_get _engines (transcribe_engine_name model) = Some cls
    /\ events (transcribe_client instantiate model)
       = [Construct (transcribe_engine_name model) []]
    /\ outcome (transcribe_client instantiate model) = instantiate cls []
    /\ (str_in (ASRModel_value model) get_available_engines = false ->
        transcribe_engine_name model = "funasr" /\ cls = FunASRClient)
    /\ transcribe_client instantiate PARAFORMER_ZH
       = transcribe_client instantiate SENSEVOICE.
Proof.
  unfold transcribe_client, create, outcome, events.
  destruct model; cbn.
  - exists FunASRClient. destruct (instantiate FunASRClient []); cbn; repeat split.
  - exists FunASRNanoClient.
    destruct (instantiate FunASRNanoClient []); cbn; repeat split;
      intros; discriminate.
  - exists FunASRClient. destruct (instantiate FunASRClient []); cbn; repeat split.
  - exists MossClient.
    destruct (instantiate MossClient []); cbn; repeat split;
      intros; discriminate.
Qed.

(** * Properties of the engine manager *)

(** ** The order of strings *)

Lemma ascii_compare_lt_trans (a b c : ascii) :
  Ascii.compare a b = Lt -> Ascii.compare b c = Lt -> Ascii.compare a c = Lt.
Proof.
  unfold Ascii.compare. rewrite !N.compare_lt_iff. apply N.lt_trans.
Qed.

Lemma string_compare_lt_trans (a b c : string) :
  String.compare a b = Lt -> String.compare b c = Lt -> String.compare a c = Lt.
Proof.
  revert b c. induction a as [|x a IH]; intros [|y b] [|z c]; cbn;
    try discriminate; try reflexivity.
  destruct (Ascii.compare x y) eqn:Hxy; try discriminate;
    destruct (Ascii.compare y z) eqn:Hyz; try discriminate; intros Hab Hbc.
  - apply Ascii.compare_eq_iff in Hxy, Hyz. subst.
    assert (Hzz : Ascii.compare z z = Eq)
      by (unfold Ascii.compare; apply N.compare_refl).
    rewrite Hzz. now apply (IH b c).
  - apply Ascii.compare_eq_iff in Hxy. subst. now rewrite Hyz.
  - apply Ascii.compare_eq_iff in Hyz. subst. now rewrite Hxy.
  - now rewrite (ascii_compare_lt_trans x y z Hxy Hyz).
Qed.

Lemma string_ltb_irrefl (a : string) : String.ltb a a = false.
Proof.
  unfold String.ltb.
  destruct (String.compare a a) eqn:H; try reflexivity.
  pose proof (String.compare_antisym a a) as Hanti. rewrite H in Hanti.
  discriminate Hanti.
Qed.

(** [a] is not after [b], and [b] is not after [c]: then [a] is not after
    [c]. *)
Lemma string_not_after_trans (a b c : string) :
  String.ltb b a = false -> String.ltb c b = false -> String.ltb c a = false.
Proof.
  unfold String.ltb. intros Hba Hcb.
  destruct (String.compare c a) eqn:Hca; try reflexivity.
  destruct (String.compare b a) eqn:Hba'; try discriminate.
  - apply String.compare_eq_iff in Hba'. subst b. now rewrite Hca in Hcb.
  - destruct (String.compare c b) eqn:Hcb'; try discriminate.
    + apply String.compare_eq_iff in Hcb'. subst c. rewrite Hca in Hba'.
      discriminate.
    + pose proof (String.compare_antisym b a) as H1. rewrite Hba' in H1.
      pose proof (String.compare_antisym c b) as H2. rewrite Hcb' in H2.
      assert (Hab : String.compare a b = Lt)
        by (destruct (String.compare a b); cbn in H1; congruence).
      assert (Hbc : String.compare b c = Lt)
        by (destruct (String.compare b c); cbn in H2; congruence).
      pose proof (string_compare_lt_trans a b c Hab Hbc) as Hac.
      pose proof (String.compare_antisym c a) as H3. rewrite Hca, Hac in H3.
      discriminate.
Qed.

Lemma string_ltb_asym (a b : string) :
  String.ltb a b = true -> String.ltb b a = false.
Proof.
  unfold String.ltb. rewrite (String.compare_antisym b a).
  destruct (String.compare a b); cbn; congruence.
Qed.

(** Two strings neither of which is before the other are equal. *)
Lemma string_ltb_total (a b : string) :
  String.ltb a b = false -> String.ltb b a = false -> a = b.
Proof.
  unfold String.ltb. rewrite (String.compare_antisym b a).
  destruct (String.compare a b) eqn:H; cbn; try discriminate.
  intros _ _. now apply String.compare_eq_iff.
Qed.

(** ** Dicts as association lists *)

Lemma dict_get_set {V : Type} (d : list (string * V)) (k k' : string) (v : V) :
  dict_get (dict_set d k v) k'
  = if String.eqb k k' then Some v else dict_get d k'.
Proof.
  induction d as [|[k0 v0] rest IH]; cbn.
  - destruct (String.eqb k k'); reflexivity.
  - destruct (String.eqb_spec k0 k) as [->|Hne]; cbn.
    + destruct (String.eqb k k'); reflexivity.
    + rewrite IH.
      destruct (String.eqb_spec k0 k') as [He|Hne'];
        destruct (String.eqb_spec k k') as [He'|Hne'']; congruence.
Qed.

Lemma dict_keys_set {V : Type} (d : list (string * V)) (k : string) (v : V) :
  dict_keys (dict_set d k v)
  = if dict_mem d k then dict_keys d else (dict_keys d ++ [k])%list.
Proof.
  unfold dict_mem, dict_keys.
  induction d as [|[k0 v0] rest IH]; cbn; [reflexivity|].
  destruct (String.eqb_spec k0 k) as [->|Hne]; cbn; [reflexivity|].
  rewrite IH. destruct (dict_get rest k); reflexivity.
Qed.

Lemma dict_get_none_keys {V : Type} (d : list (string * V)) (k : string) :
  dict_get d k = None <-> ~ In k (dict_keys d).
Proof.
  unfold dict_keys. induction d as [|[k0 v0] rest IH]; cbn; [tauto|].
  destruct (String.eqb_spec k0 k) as [->|Hne].
  - split; [discriminate | tauto].
  - rewrite IH. tauto.
Qed.

Lemma dict_set_nodup {V : Type} (d : list (string * V)) (k : string) (v : V) :
  NoDup (dict_keys d) -> NoDup (dict_keys (dict_set d k v)).
Proof.
  intros Hnd. rewrite dict_keys_set. unfold dict_mem.
  destruct (dict_get d k) eqn:Hk; [exact Hnd|].
  apply dict_get_none_keys in Hk.
  apply NoDup_app; [exact Hnd | repeat constructor; intros [] |].
  intros x Hx [<-|[]]. contradiction.
Qed.

Lemma dict_keys_del_incl {V : Type} (d : list (string * V)) (k x : string) :
  In x (dict_keys (dict_del d k)) -> In x (dict_keys d).
Proof.
  unfold dict_keys. induction d as [|[k0 v0] rest IH]; cbn; [tauto|].
  destruct (String.eqb k0 k); cbn; [tauto|]. intros [->|H]; [now left|].
  right. now apply IH.
Qed.

Lemma dict_del_nodup {V : Type} (d : list (string * V)) (k : string) :
  NoDup (dict_keys d) -> NoDup (dict_keys (dict_del d k)).
Proof.
  unfold dict_keys. induction d as [|[k0 v0] rest IH]; cbn; [trivial|].
  intros Hnd. apply NoDup_cons_iff in Hnd. destruct Hnd as [Hnotin Hrest].
  destruct (String.eqb k0 k); cbn; [exact Hrest|].
  constructor; [|now apply IH].
  intros Hin. apply Hnotin. now apply (dict_keys_del_incl rest k).
Qed.

Lemma dict_get_del {V : Type} (d : list (string * V)) (k k' : string) :
  NoDup (dict_keys d) ->
  dict_get (dict_del d k) k' = if String.eqb k k' then None else dict_get d k'.
Proof.
  unfold dict_keys. induction d as [|[k0 v0] rest IH]; cbn; intros Hnd.
  - destruct (String.eqb k k'); reflexivity.
  - apply NoDup_cons_iff in Hnd. destruct Hnd as [Hnotin Hrest].
    destruct (String.eqb_spec k0 k) as [Hk0|Hne].
    + subst k0. destruct (String.eqb_spec k k') as [Hk|Hne']; [|reflexivity].
      subst k'. now apply dict_get_none_keys.
    + cbn. rewrite (IH Hrest).
      destruct (String.eqb_spec k0 k') as [He|Hne'];
        destruct (String.eqb_spec k k') as [He'|Hne'']; congruence.
Qed.

Lemma dict_get_in {V : Type} (d : list (string * V)) (k : string) (v : V) :
  dict_get d k = Some v -> In (k, v) d.
Proof.
  induction d as [|[k0 v0] rest IH]; cbn; [discriminate|].
  destruct (String.eqb_spec k0 k) as [->|Hne].
  - intros [= ->]. now left.
  - intros H. right. now apply IH.
Qed.

Lemma dict_in_get {V : Type} (d : list (string * V)) (k : string) (v : V) :
  NoDup (dict_keys d) -> In (k, v) d -> dict_get d k = Some v.
Proof.
  unfold dict_keys. induction d as [|[k0 v0] rest IH]; cbn; [tauto|].
  intros Hnd. apply NoDup_cons_iff in Hnd. destruct Hnd as [Hnotin Hrest].
  intros [[= -> ->]|Hin].
  - now rewrite String.eqb_refl.
  - destruct (String.eqb_spec k0 k) as [->|Hne]; [|now apply IH].
    exfalso. apply Hnotin. apply in_map_iff. now exists (k, v).
Qed.

(** ** Registering and unregistering *)

Lemma EngineType_eqb_spec (a b : Engine.EngineType) :
  reflect (a = b) (Engine.EngineType_eqb a b).
Proof.
  destruct a, b; cbn; constructor; congruence.
Qed.

(** X15. A registered configuration is what [get_engine_config] then
    returns under its type and name, whether the name was new or taken; no
    other entry of the manager changes, and no key becomes double. *)
Theorem register_then_get (self : Engine.EngineManager)
  (config : Engine.EngineConfig) :
  let self' := Engine.register_engine self config in
  Engine.get_engine_config self' (Engine.type config) (Engine.name config)
  = Some config
  /\ (forall t n,
        t <> Engine.type config \/ n <> Engine.name config ->
        Engine.get_engine_config self' t n = Engine.get_engine_config self t n)
  /\ (manager_well_formed self -> manager_well_formed self').
Proof.
  cbv zeta. unfold Engine.register_engine, Engine.get_engine_config,
    Engine.set_configs. cbn.
  split; [|split].
  - destruct (EngineType_eqb_spec (Engine.type config) (Engine.type config));
      [|congruence].
    rewrite dict_get_set. now rewrite String.eqb_refl.
  - intros t n Hother.
    destruct (EngineType_eqb_spec t (Engine.type config)) as [->|Hne];
      [|reflexivity].
    rewrite dict_get_set.
    destruct (String.eqb_spec (Engine.name config) n) as [<-|Hn];
      [|reflexivity].
    destruct Hother; congruence.
  - intros Hwf t. cbn.
    destruct (EngineType_eqb_spec t (Engine.type config)) as [->|Hne];
      [|apply Hwf].
    apply dict_set_nodup, Hwf.
Qed.

(** X16. In a manager whose tables have each key once, an unregistered
    engine is gone: [get_engine_config] returns nothing for it, every other
    entry is as before, and unregistering a name that is not there changes
    nothing. *)
Theorem unregister_then_get (self : Engine.EngineManager)
  (t : Engine.EngineType) (n : string) :
  manager_well_formed self ->
  let self' := Engine.unregister_engine self t n in
  Engine.get_engine_config self' t n = None
  /\ (forall t' n',
        t' <> t \/ n' <> n ->
        Engine.get_engine_config self' t' n'
        = Engine.get_engine_config self t' n')
  /\ manager_well_formed self'
  /\ (Engine.get_engine_config self t n = None -> self' = self).
Proof.
  intros Hwf. cbv zeta.
  unfold Engine.unregister_engine, Engine.get_engine_config, dict_mem.
  destruct (dict_get (Engine._configs self t) n) as [c|] eqn:Hget.
  - unfold Engine.set_configs. cbn.
    split; [|split; [|split]].
    + destruct (EngineType_eqb_spec t t); [|congruence].
      rewrite (dict_get_del _ _ _ (Hwf t)). now rewrite String.eqb_refl.
    + intros t' n' Hother.
      destruct (EngineType_eqb_spec t' t) as [->|Hne]; [|reflexivity].
      rewrite (dict_get_del _ _ _ (Hwf t)).
      destruct (String.eqb_spec n n') as [<-|Hn]; [|reflexivity].
      destruct Hother; congruence.
    + intros t'. cbn.
      destruct (EngineType_eqb_spec t' t) as [->|Hne]; [|apply Hwf].
      apply dict_del_nodup, Hwf.
    + discriminate.
  - split; [exact Hget|]. split; [reflexivity|]. split; [exact Hwf | reflexivity].
Qed.

Lemma init_well_formed : manager_well_formed Engine.EngineManager_init.
Proof.
  intros t. destruct t; cbn; repeat constructor; cbn; intuition discriminate.
Qed.

Lemma unregister_then_get_witness :
  Engine.get_engine_config
    (Engine.unregister_engine Engine.EngineManager_init Engine.ASR "funasr")
    Engine.ASR "funasr" = None
  /\ Engine.get_engine_config Engine.EngineManager_init Engine.ASR "funasr"
     <> None.
Proof.
  split.
  - apply (unregister_then_get Engine.EngineManager_init Engine.ASR "funasr").
    apply init_well_formed.
  - discriminate.
Defined.

(** ** The listing and the default engine *)

Lemma ranks_before_iff (a b : Engine.EngineInfo) :
  Engine.info_key_lt b a = false <-> ranks_before a b.
Proof.
  unfold Engine.info_key_lt, ranks_before.
  rewrite orb_false_iff, andb_false_iff, Z.ltb_ge, Z.eqb_neq.
  split.
  - intros [Hle [Hne|Hname]]; [left; lia|].
    destruct (Z.eq_dec (Engine.info_priority a) (Engine.info_priority b));
      [right; tauto | left; lia].
  - intros [Hlt|[Heq Hname]]; [split; [lia | left; lia]|].
    split; [lia | now right].
Qed.

Lemma ranks_before_of_lt (a b : Engine.EngineInfo) :
  Engine.info_key_lt a b = true -> ranks_before a b.
Proof.
  unfold Engine.info_key_lt, ranks_before.
  rewrite orb_true_iff, andb_true_iff, Z.ltb_lt, Z.eqb_eq.
  intros [Hlt|[Heq Hname]]; [left; lia|].
  right. split; [lia|]. now apply string_ltb_asym.
Qed.

Lemma ranks_before_trans (a b c : Engine.EngineInfo) :
  ranks_before a b -> ranks_before b c -> ranks_before a c.
Proof.
  unfold ranks_before.
  intros [Hab|[Hab Hnab]] [Hbc|[Hbc Hnbc]]; try (left; lia).
  right. split; [lia|]. eapply string_not_after_trans; eassumption.
Qed.

Lemma insert_info_perm x l : Permutation (x :: l) (Engine.insert_info x l).
Proof.
  induction l as [|y rest IH]; cbn; [apply Permutation_refl|].
  destruct (Engine.info_key_lt y x); [|apply Permutation_refl].
  eapply perm_trans; [apply perm_swap|]. now apply perm_skip.
Qed.

Lemma sort_infos_perm l : Permutation l (Engine.sort_infos l).
Proof.
  induction l as [|x rest IH]; cbn; [constructor|].
  eapply perm_trans; [apply perm_skip, IH | apply insert_info_perm].
Qed.

Lemma insert_info_sorted x l :
  StronglySorted ranks_before l ->
  StronglySorted ranks_before (Engine.insert_info x l).
Proof.
  intros Hss. induction Hss as [|y rest Hrest IH Hall]; cbn.
  - repeat constructor.
  - destruct (Engine.info_key_lt y x) eqn:Hlt.
    + constructor; [exact IH|].
      rewrite Forall_forall in *. intros z Hz.
      eapply Permutation_in in Hz; [|apply Permutation_sym, insert_info_perm].
      destruct Hz as [<-|Hz]; [now apply ranks_before_of_lt | now apply Hall].
    + apply ranks_before_iff in Hlt.
      constructor; [now constructor|].
      constructor; [exact Hlt|].
      rewrite Forall_forall in *. intros z Hz.
      eapply ranks_before_trans; [exact Hlt | now apply Hall].
Qed.

Lemma sort_infos_sorted l : StronglySorted ranks_before (Engine.sort_infos l).
Proof.
  induction l as [|x rest IH]; cbn; [constructor | now apply insert_info_sorted].
Qed.

Lemma fold_max_bounds (ps : list Z) (p : Z) :
  (p <= fold_left Z.max ps p)%Z
  /\ Forall (fun x => (x <= fold_left Z.max ps p)%Z) ps
  /\ (fold_left Z.max ps p = p \/ In (fold_left Z.max ps p) ps).
Proof.
  revert p. induction ps as [|q ps IH]; intros p; cbn.
  - repeat split; [lia | constructor | now left].
  - destruct (IH (Z.max p q)) as (Hge & Hall & Hin).
    split; [lia|]. split.
    + constructor; [lia | exact Hall].
    + destruct Hin as [Heq|Hin]; [|tauto].
      rewrite Heq. destruct (Z.max_spec p q) as [[_ ->]|[_ ->]]; tauto.
Qed.

Lemma max_priority_bounds (d : list (string * Engine.EngineConfig)) :
  Forall (fun kv => (Engine.priority (snd kv) <= Engine.max_priority d)%Z) d
  /\ (d <> [] ->
      exists kv, In kv d /\ Engine.priority (snd kv) = Engine.max_priority d).
Proof.
  unfold Engine.max_priority.
  destruct d as [|kv0 rest]; cbn [map]; [split; [constructor | congruence]|].
  destruct (fold_max_bounds
              (map (fun kv => Engine.priority (snd kv)) rest)
              (Engine.priority (snd kv0))) as (Hge & Hall & Hin).
  split.
  - constructor; [exact Hge|].
    rewrite Forall_forall in *. intros kv Hkv. apply Hall.
    apply in_map_iff. now exists kv.
  - intros _. destruct Hin as [Heq|Hin].
    + exists kv0. split; [now left | now rewrite Heq].
    + apply in_map_iff in Hin. destruct Hin as [kv [Hp Hkv]].
      exists kv. split; [now right | exact Hp].
Qed.

(** Each entry of the listing is built from a configuration of the table. *)
Lemma list_engines_entries tts_is_available self t e :
  In e (Engine.list_engines tts_is_available self t) <->
  exists n c,
    In (n, c) (Engine._configs self t)
    /\ e = {| Engine.info_name := n;
              Engine.info_type := t;
              Engine.info_display_name := Engine.display_name c;
              Engine.info_description := Engine.description c;
              Engine.info_capabilities := Engine.capabilities c;
              Engine.available := Engine.engine_available tts_is_available t n;
              Engine.info_priority := Engine.priority c;
              Engine.is_default :=
                (Engine.priority c
                 =? Engine.max_priority (Engine._configs self t))%Z |}.
Proof.
  unfold Engine.list_engines. split.
  - intros Hin.
    eapply Permutation_in in Hin; [|apply Permutation_sym, sort_infos_perm].
    apply in_map_iff in Hin. destruct Hin as [[n c] [<- Hin]].
    exists n, c. split; [exact Hin | reflexivity].
  - intros (n & c & Hin & ->).
    eapply Permutation_in; [apply sort_infos_perm|].
    apply in_map_iff. exists (n, c). split; [reflexivity | exact Hin].
Qed.

(** X17. [list_engines] lists every registered engine of the type once,
    by priority descending and, among equal priorities, by name ascending.
    Each entry carries the priority of its configuration, and is flagged
    default exactly when that priority is the highest of the type.  An ASR
    engine is always reported available, a SPEAKER engine never. *)
Theorem list_engines_sorted tts_is_available self t :
  let engines := Engine.list_engines tts_is_available self t in
  Permutation (map Engine.info_name engines)
              (dict_keys (Engine._configs self t))
  /\ StronglySorted ranks_before engines
  /\ Forall (fun e =>
       exists c,
         In (Engine.info_name e, c) (Engine._configs self t)
         /\ Engine.info_priority e = Engine.priority c
         /\ (Engine.info_priority e
             <= Engine.max_priority (Engine._configs self t))%Z
         /\ Engine.is_default e
            = (Engine.info_priority e
               =? Engine.max_priority (Engine._configs self t))%Z
         /\ Engine.available e
            = match t with
              | Engine.ASR => true
              | Engine.TTS =>
                  match tts_is_available (Engine.info_name e) with
                  | Ok b => b
                  | Raise _ => false
                  end
              | Engine.SPEAKER => false
              end)
       engines.
Proof.
  cbv zeta. split; [|split].
  - unfold Engine.list_engines, dict_keys.
    eapply perm_trans;
      [apply Permutation_map, Permutation_sym, sort_infos_perm|].
    rewrite map_map. cbn. apply Permutation_refl.
  - apply sort_infos_sorted.
  - apply Forall_forall. intros e He.
    apply list_engines_entries in He. destruct He as (n & c & Hin & ->).
    exists c. cbn [Engine.info_name Engine.info_priority Engine.is_default
                     Engine.available].
    split; [exact Hin|]. split; [reflexivity|]. split; [|split].
    + destruct (max_priority_bounds (Engine._configs self t)) as [Hall _].
      rewrite Forall_forall in Hall. apply (Hall (n, c) Hin).
    + reflexivity.
    + destruct t; reflexivity.
Qed.

Lemma list_engines_strongly_sorted tts_is_available self t :
  StronglySorted ranks_before (Engine.list_engines tts_is_available self t).
Proof.
  unfold Engine.list_engines. apply sort_infos_sorted.
Qed.

Lemma list_engines_lists tts_is_available self t n c :
  In (n, c) (Engine._configs self t) ->
  In (listed_info tts_is_available self t n c)
     (Engine.list_engines tts_is_available self t).
Proof.
  intros Hin. apply list_engines_entries. exists n, c.
  split; [exact Hin | reflexivity].
Qed.

Lemma list_engines_listed tts_is_available self t e :
  In e (Engine.list_engines tts_is_available self t) ->
  exists n c,
    In (n, c) (Engine._configs self t)
    /\ e = listed_info tts_is_available self t n c.
Proof.
  intros He. now apply list_engines_entries in He.
Qed.

(** The head of a non-empty listing has the highest priority, and so is
    flagged default. *)
Lemma list_engines_head tts_is_available self t h rest :
  Engine.list_engines tts_is_available self t = h :: rest ->
  Engine.info_priority h = Engine.max_priority (Engine._configs self t)
  /\ Engine.is_default h = true.
Proof.
  intros Hlist.
  pose proof (list_engines_strongly_sorted tts_is_available self t) as Hss.
  rewrite Hlist in Hss. apply StronglySorted_inv in Hss. destruct Hss as [_ Hall].
  rewrite Forall_forall in Hall.
  destruct (list_engines_listed tts_is_available self t h) as (n & c & Hin & Hh);
    [rewrite Hlist; now left|].
  destruct (max_priority_bounds (Engine._configs self t)) as [Hle Hmax].
  rewrite Forall_forall in Hle. pose proof (Hle (n, c) Hin) as Hc. cbn in Hc.
  destruct Hmax as [[n' c'] [Hin' Hp']].
  { intros Hnil. rewrite Hnil in Hin. destruct Hin. }
  cbn in Hp'.
  assert (Hge : (Engine.priority c' <= Engine.info_priority h)%Z).
  { pose proof (list_engines_lists tts_is_available self t n' c' Hin') as He'.
    rewrite Hlist in He'. destruct He' as [Heq|He'].
    - rewrite Heq. cbn. lia.
    - apply Hall in He'. unfold ranks_before in He'. cbn in He'. lia. }
  assert (Heq : Engine.info_priority h
                = Engine.max_priority (Engine._configs self t)).
  { rewrite Hh in *. cbn in *. lia. }
  split; [exact Heq|].
  rewrite Hh in *. cbn in *. now apply Z.eqb_eq.
Qed.

(** X18. In a manager whose tables have each key once,
    [get_default_engine] returns nothing exactly when no engine of the type
    is registered; otherwise it returns a registered engine whose priority
    is the highest of the type, and of the engines with that priority the
    one whose name comes first. *)
Theorem default_engine_has_top_priority tts_is_available self t :
  manager_well_formed self ->
  match Engine.get_default_engine tts_is_available self t with
  | None => Engine._configs self t = []
  | Some n =>
      exists c,
        Engine.get_engine_config self t n = Some c
        /\ Engine.priority c = Engine.max_priority (Engine._configs self t)
        /\ forall n' c',
             Engine.get_engine_config self t n' = Some c' ->
             (Engine.priority c' <= Engine.priority c)%Z
             /\ (Engine.priority c' = Engine.priority c ->
                 String.ltb n' n = false)
  end.
Proof.
  intros Hwf. unfold Engine.get_default_engine.
  destruct (Engine.list_engines tts_is_available self t) as [|h rest] eqn:Hlist.
  - cbn.
    assert (Hperm : Permutation
                      (map Engine.info_name
                         (Engine.list_engines tts_is_available self t))
                      (dict_keys (Engine._configs self t))).
    { unfold Engine.list_engines, dict_keys.
      eapply perm_trans;
        [apply Permutation_map, Permutation_sym, sort_infos_perm|].
      rewrite map_map. cbn. apply Permutation_refl. }
    rewrite Hlist in Hperm. cbn in Hperm.
    apply Permutation_nil in Hperm. unfold dict_keys in Hperm.
    now apply map_eq_nil in Hperm.
  - destruct (list_engines_head tts_is_available self t h rest Hlist)
      as [Hmax Hdef].
    cbn [find]. rewrite Hdef.
    destruct (list_engines_listed tts_is_available self t h) as (n & c & Hin & Hh);
      [rewrite Hlist; now left|].
    exists c. rewrite Hh in Hmax |- *. cbn in Hmax |- *.
    split; [apply dict_in_get; [apply Hwf | exact Hin]|].
    split; [exact Hmax|].
    intros n' c' Hget'. apply dict_get_in in Hget'.
    pose proof (list_engines_lists tts_is_available self t n' c' Hget') as He'.
    rewrite Hlist in He'. destruct He' as [Heq|He'].
    + rewrite Hh in Heq. unfold listed_info in Heq.
      injection Heq as Hn _ _ _ Hp _. subst n'.
      split; [lia|]. intros _. apply string_ltb_irrefl.
    + pose proof (list_engines_strongly_sorted tts_is_available self t) as Hss.
      rewrite Hlist in Hss. apply StronglySorted_inv in Hss.
      destruct Hss as [_ Hall]. rewrite Forall_forall in Hall.
      apply Hall in He'. rewrite Hh in He'. unfold ranks_before in He'.
      cbn in He'. destruct He' as [Hlt|[Heq Hname]].
      * split; [lia|]. intros Heq. lia.
      * split; [lia|]. intros _. exact Hname.
Qed.

Lemma default_engine_has_top_priority_witness :
  match Engine.get_default_engine (fun _ => Ok true) Engine.EngineManager_init
          Engine.ASR with
  | None => Engine._configs Engine.EngineManager_init Engine.ASR = []
  | Some n =>
      exists c,
        Engine.get_engine_config Engine.EngineManager_init Engine.ASR n = Some c
        /\ Engine.priority c
           = Engine.max_priority
               (Engine._configs Engine.EngineManager_init Engine.ASR)
        /\ forall n' c',
             Engine.get_engine_config Engine.EngineManager_init Engine.ASR n'
             = Some c' ->
             (Engine.priority c' <= Engine.priority c)%Z
             /\ (Engine.priority c' = Engine.priority c ->
                 String.ltb n' n = false)
  end.
Proof.
  apply (default_engine_has_top_priority (fun _ => Ok true)
           Engine.EngineManager_init Engine.ASR).
  apply init_well_formed.
Defined.

(** The defaults of a fresh manager. *)
Example default_engines_of_init tts_is_available :
  Engine.get_default_engine tts_is_available Engine.EngineManager_init Engine.ASR
  = Some "funasr"
  /\ Engine.get_default_engine tts_is_available Engine.EngineManager_init
       Engine.TTS = Some "sherpa-vits"
  /\ Engine.get_default_engine tts_is_available Engine.EngineManager_init
       Engine.SPEAKER = None.
Proof. repeat split. Qed.

(** ** Creating engines through the manager *)




